(** * CareCompanion: the care store (schedule generation, dose transitions,
      history ledger, remedies, interaction annotations)

    A shallow embedding of [types.ts] and of the zustand store
    [useCareStore], together with the part of the ECMAScript [Date] object
    the store calls ([new Date()], [getDate], [setDate], [toISOString]).

    Conventions.
    - A JavaScript string is a [string]; an array is a [list]; the
      [Record<string, Interaction>] passed to [updateInteractions] is a
      [gmap string Interaction] of its own properties, and reading a key it
      does not own falls back on [Object.prototype]; an optional field is an
      [option].
    - A time value (milliseconds since the epoch, UTC) is a [Z].
    - Every store action [a: (args) => set((state) => partial)] is a function
      [a args state] returning the merged state: zustand's [set] copies the
      fields of [partial] over [state], and leaves [state] as it is
      when the callback returns [state] itself.
    - What an action reads from its environment (the clock, [Math.random])
      is an explicit argument of the action. *)

From Stdlib Require Import ZArith Ascii String DecimalString.
From Stdlib Require DecimalPos DecimalZ.
From stdpp Require Import base decidable option list strings gmap.
From stdpp Require sorting.

Local Open Scope string_scope.
Local Open Scope list_scope.

(** ** types.ts *)

Inductive DoseStatus := PENDING | TAKEN | MISSED.

#[global] Instance DoseStatus_eq_dec : EqDecision DoseStatus.
Proof. solve_decision. Defined.

(** The string each member of the enum stands for. *)
Definition DoseStatus_value (s : DoseStatus) : string :=
  match s with
  | PENDING => "pending"
  | TAKEN => "taken"
  | MISSED => "missed"
  end.

Inductive Severity := high | medium.

#[global] Instance Severity_eq_dec : EqDecision Severity.
Proof. solve_decision. Defined.

Module Interaction.
Record t := mk {
  severity : Severity;
  summary : string;
  detail : string
}.
End Interaction.

#[global] Instance Interaction_eq_dec : EqDecision Interaction.t.
Proof. solve_decision. Defined.

(** What the field [potentialInteractions] holds at run time.  [types.ts]
    declares it an [Interaction]; [updateInteractions] stores what
    [interactions[med.id]] evaluates to, and for a key the object does not
    own that is the property of this name inherited from [Object.prototype]
    (a function; the prototype object itself for [__proto__]), when there is
    one. *)
Inductive Annotation :=
  | ownInteraction (interaction : Interaction.t)
  | inheritedProperty (key : string).

#[global] Instance Annotation_eq_dec : EqDecision Annotation.
Proof. solve_decision. Defined.

Module Medicine.
Record t := mk {
  id : string;
  name : string;
  dosage : string;
  frequency : string;
  timings : list string;
  durationDays : Z;
  potentialInteractions : option Annotation
}.
End Medicine.

Module Dose.
Record t := mk {
  id : string;
  medicineId : string;
  medicineName : string;
  date : string;
  timeSlot : string;
  status : DoseStatus
}.
End Dose.

#[global] Instance Dose_eq_dec : EqDecision Dose.t.
Proof. solve_decision. Defined.

Module HistoryEntry.
Record t := mk {
  id : string;
  medicineName : string;
  timeSlot : string;
  date : string;
  timestamp : string;
  status : DoseStatus
}.
End HistoryEntry.

#[global] Instance HistoryEntry_eq_dec : EqDecision HistoryEntry.t.
Proof. solve_decision. Defined.

Module CareState.
Record t := mk {
  medicines : list Medicine.t;
  doses : list Dose.t;
  history : list HistoryEntry.t;
  remedies : list string;
  lastExtractionDate : option string
}.
End CareState.

(** ** The ECMAScript [Date] abstract operations the store relies on

    Names follow ECMA-262 (section "Date Objects").  A time value is the
    number of milliseconds since 1970-01-01T00:00:00Z.  The clock readings
    handed to the store are those of [new Date()] and [Date.now()], which
    are finite time values, so [TimeClip] is the identity on them and on the
    values nine days later. *)

Module JSDate.
Local Open Scope Z_scope.

Definition msPerDay : Z := 86400000.
Definition msPerHour : Z := 3600000.
Definition msPerMinute : Z := 60000.
Definition msPerSecond : Z := 1000.

Definition Day (t : Z) : Z := t / msPerDay.
Definition TimeWithinDay (t : Z) : Z := t mod msPerDay.

Definition DayFromYear (y : Z) : Z :=
  365 * (y - 1970) + (y - 1969) / 4 - (y - 1901) / 100 + (y - 1601) / 400.

Definition DaysInYear (y : Z) : Z := DayFromYear (y + 1) - DayFromYear y.

(** The largest [y] with [DayFromYear y <= d]: the quotient by the mean
    year length is off by at most one. *)
Definition YearFromDay (d : Z) : Z :=
  let e := 1970 + (400 * d) / 146097 in
  if DayFromYear (e + 1) <=? d then e + 1
  else if DayFromYear e <=? d then e
  else e - 1.

Definition YearFromTime (t : Z) : Z := YearFromDay (Day t).

(** 1 in a leap year, 0 otherwise. *)
Definition InLeapYearOf (y : Z) : Z := DaysInYear y - 365.
Definition InLeapYear (t : Z) : Z := InLeapYearOf (YearFromTime t).

Definition DayWithinYear (t : Z) : Z := Day t - DayFromYear (YearFromTime t).

(** Day number within the year of the first day of month [m] (0 = January). *)
Definition monthStart (m leap : Z) : Z :=
  match m with
  | 0 => 0
  | 1 => 31
  | 2 => 59 + leap
  | 3 => 90 + leap
  | 4 => 120 + leap
  | 5 => 151 + leap
  | 6 => 181 + leap
  | 7 => 212 + leap
  | 8 => 243 + leap
  | 9 => 273 + leap
  | 10 => 304 + leap
  | _ => 334 + leap
  end.

Definition MonthFromTime (t : Z) : Z :=
  let d := DayWithinYear t in
  let leap := InLeapYear t in
  if d <? 31 then 0
  else if d <? 59 + leap then 1
  else if d <? 90 + leap then 2
  else if d <? 120 + leap then 3
  else if d <? 151 + leap then 4
  else if d <? 181 + leap then 5
  else if d <? 212 + leap then 6
  else if d <? 243 + leap then 7
  else if d <? 273 + leap then 8
  else if d <? 304 + leap then 9
  else if d <? 334 + leap then 10
  else 11.

Definition DateFromTime (t : Z) : Z :=
  DayWithinYear t - monthStart (MonthFromTime t) (InLeapYear t) + 1.

Definition HourFromTime (t : Z) : Z := (t / msPerHour) mod 24.
Definition MinFromTime (t : Z) : Z := (t / msPerMinute) mod 60.
Definition SecFromTime (t : Z) : Z := (t / msPerSecond) mod 60.
Definition msFromTime (t : Z) : Z := t mod msPerSecond.

(** [MakeDay(year, month, date)]: the day number of the first of the
    month, plus [date - 1]; months outside 0..11 carry into the year. *)
Definition MakeDay (year month date : Z) : Z :=
  let ym := year + month / 12 in
  let mn := month mod 12 in
  DayFromYear ym + monthStart mn (InLeapYearOf ym) + date - 1.

Definition MakeDate (day time : Z) : Z := day * msPerDay + time.

Section Host.
(** [LocalTZA t isUTC]: the host's offset of local time from UTC, in
    milliseconds, at the UTC time value [t] ([isUTC = true]) or at the
    local time value [t] ([isUTC = false]). *)
Variable LocalTZA : Z -> bool -> Z.

Definition LocalTime (t : Z) : Z := t + LocalTZA t true.
Definition UTC (t : Z) : Z := t - LocalTZA t false.

(** [Date.prototype.getDate] *)
Definition getDate (tv : Z) : Z := DateFromTime (LocalTime tv).

(** [Date.prototype.setDate]: the new time value of the object. *)
Definition setDate (tv : Z) (dt : Z) : Z :=
  let t := LocalTime tv in
  let newDate := MakeDate (MakeDay (YearFromTime t) (MonthFromTime t) dt)
                          (TimeWithinDay t) in
  UTC newDate.
End Host.

(** *** Formatting *)

Definition digitChar (d : Z) : ascii :=
  match d with
  | 0 => "0" | 1 => "1" | 2 => "2" | 3 => "3" | 4 => "4"
  | 5 => "5" | 6 => "6" | 7 => "7" | 8 => "8" | _ => "9"
  end%char.

(** The last [w] decimal digits of [n], most significant first. *)
Fixpoint digits (w : nat) (n : Z) : string :=
  match w with
  | O => ""
  | S w' => digits w' (n / 10) +:+ String (digitChar (n mod 10)) ""
  end.

(** Four digits for the years 0..9999, a sign and six digits otherwise. *)
Definition yearString (y : Z) : string :=
  if (0 <=? y) && (y <=? 9999) then digits 4 y
  else if 0 <=? y then "+" +:+ digits 6 y
  else "-" +:+ digits 6 (- y).

(** The calendar date of a time value, [YYYY-MM-DD]. *)
Definition isoDate (t : Z) : string :=
  yearString (YearFromTime t) +:+ "-" +:+ digits 2 (MonthFromTime t + 1)
    +:+ "-" +:+ digits 2 (DateFromTime t).

Definition isoTime (t : Z) : string :=
  digits 2 (HourFromTime t) +:+ ":" +:+ digits 2 (MinFromTime t)
    +:+ ":" +:+ digits 2 (SecFromTime t) +:+ "." +:+ digits 3 (msFromTime t).

(** [Date.prototype.toISOString] *)
Definition toISOString (t : Z) : string :=
  isoDate t +:+ "T" +:+ isoTime t +:+ "Z".

(** The calendar date with day number [d] (days since 1970-01-01). *)
Definition isoDateOfDay (d : Z) : string := isoDate (d * msPerDay).
End JSDate.

(** [s.split(sep)[0]] for a one-character separator: the part of [s] before
    the first [sep], all of [s] when there is none. *)
Fixpoint split_head (sep : ascii) (s : string) : string :=
  match s with
  | EmptyString => EmptyString
  | String c s' => if Ascii.eqb c sep then EmptyString else String c (split_head sep s')
  end.

(** The string of an integer-valued Number in a template literal. *)
Definition Number_toString (n : Z) : string := NilZero.string_of_int (Z.to_int n).

(** ** store.ts: [useCareStore] *)

Import CareState.

(** The initial state of the store. *)
Definition initialState : CareState.t :=
  {| medicines := []; doses := []; history := []; remedies := [];
     lastExtractionDate := None |}.

Definition addMedicines (newMedicines : list Medicine.t) (state : CareState.t)
  : CareState.t :=
  {| medicines := medicines state ++ newMedicines;
     doses := doses state;
     history := history state;
     remedies := remedies state;
     lastExtractionDate := lastExtractionDate state |}.

Definition addRemedy (name : string) (state : CareState.t) : CareState.t :=
  {| medicines := medicines state;
     doses := doses state;
     history := history state;
     remedies := if bool_decide (name ∈ remedies state)
                 then remedies state
                 else remedies state ++ [name];
     lastExtractionDate := lastExtractionDate state |}.

Definition removeRemedy (name : string) (state : CareState.t) : CareState.t :=
  {| medicines := medicines state;
     doses := doses state;
     history := history state;
     remedies := filter (λ r, r ≠ name) (remedies state);
     lastExtractionDate := lastExtractionDate state |}.

(** The property names of [Object.prototype] (ECMA-262, "Properties of the
    Object Prototype Object", with [__proto__] and the four legacy accessor
    helpers).  Each holds a function, [__proto__] yields the prototype
    object: all of them truthy. *)
Definition ObjectPrototype_keys : list string :=
  [ "constructor"; "hasOwnProperty"; "isPrototypeOf"; "propertyIsEnumerable";
    "toLocaleString"; "toString"; "valueOf"; "__proto__";
    "__defineGetter__"; "__defineSetter__"; "__lookupGetter__";
    "__lookupSetter__" ].

(** [interactions[key]], for an object written as a literal or made by
    [JSON.parse], whose prototype is [Object.prototype]: the own property of
    that name, else the inherited one, else [undefined]. *)
Definition Record_get (interactions : gmap string Interaction.t) (key : string)
  : option Annotation :=
  match interactions !! key with
  | Some interaction => Some (ownInteraction interaction)
  | None =>
      if bool_decide (key ∈ ObjectPrototype_keys)
      then Some (inheritedProperty key)
      else None
  end.

(** [interactions[med.id] || undefined]: an own entry is an [Interaction]
    object and an inherited property a function or an object, all truthy, so
    the disjunction yields what the lookup yields. *)
Definition updateInteractions (interactions : gmap string Interaction.t)
    (state : CareState.t) : CareState.t :=
  {| medicines :=
       map (λ med,
              {| Medicine.id := Medicine.id med;
                 Medicine.name := Medicine.name med;
                 Medicine.dosage := Medicine.dosage med;
                 Medicine.frequency := Medicine.frequency med;
                 Medicine.timings := Medicine.timings med;
                 Medicine.durationDays := Medicine.durationDays med;
                 Medicine.potentialInteractions :=
                   Record_get interactions (Medicine.id med) |})
           (medicines state);
     doses := doses state;
     history := history state;
     remedies := remedies state;
     lastExtractionDate := lastExtractionDate state |}.

(** The template literal [`${med.id}-${dateStr}-${slot}`]. *)
Definition doseId (medId dateStr slot : string) : string :=
  medId +:+ "-" +:+ dateStr +:+ "-" +:+ slot.

Section Schedule.
Variable LocalTZA : Z -> bool -> Z.

(** The body of the [for] loop up to [dateStr]:
    [date = new Date(today); date.setDate(today.getDate() + i);
     dateStr = date.toISOString().split('T')[0]]. *)
Definition dateStr (today : Z) (i : nat) : string :=
  let date := today in
  let date := JSDate.setDate LocalTZA date
                (JSDate.getDate LocalTZA today + Z.of_nat i)%Z in
  split_head "T" (JSDate.toISOString date).

(** [med.timings.forEach((slot) => newDoses.push({...}))] *)
Definition pushSlots (med : Medicine.t) (dateStr : string)
    (newDoses : list Dose.t) : list Dose.t :=
  fold_left
    (λ newDoses slot,
       newDoses ++ [ {| Dose.id := doseId (Medicine.id med) dateStr slot;
                        Dose.medicineId := Medicine.id med;
                        Dose.medicineName := Medicine.name med;
                        Dose.date := dateStr;
                        Dose.timeSlot := slot;
                        Dose.status := PENDING |} ])
    (Medicine.timings med) newDoses.

(** [for (let i = 0; i < 10; i++) { ... }] *)
Definition pushDays (today : Z) (med : Medicine.t)
    (newDoses : list Dose.t) : list Dose.t :=
  fold_left (λ newDoses i, pushSlots med (dateStr today i) newDoses)
            (seq 0 10) newDoses.

(** [newMedicines.forEach((med) => { ... })], starting from [newDoses = []]. *)
Definition newDoses (today : Z) (newMedicines : list Medicine.t) : list Dose.t :=
  fold_left (λ newDoses med, pushDays today med newDoses) newMedicines [].

(** [today] is the reading of the first [new Date()], [now] that of the
    second. *)
Definition generateSchedule (today now : Z) (newMedicines : list Medicine.t)
    (state : CareState.t) : CareState.t :=
  {| medicines := medicines state ++ newMedicines;
     doses := doses state ++ newDoses today newMedicines;
     history := history state;
     remedies := remedies state;
     lastExtractionDate := Some (JSDate.toISOString now) |}.
End Schedule.

(** What one call of [toggleDose] reads from its environment, in evaluation
    order: [Date.now()], [Math.random().toString(36).substr(2, 9)] and
    [new Date()]. *)
Record ToggleEnv := {
  Date_now : Z;
  random36 : string;
  new_Date : Z
}.

Definition historyEntry (env : ToggleEnv) (targetDose : Dose.t)
    (status : DoseStatus) : HistoryEntry.t :=
  {| HistoryEntry.id :=
       "hist-" +:+ Number_toString (Date_now env) +:+ "-" +:+ random36 env;
     HistoryEntry.medicineName := Dose.medicineName targetDose;
     HistoryEntry.timeSlot := Dose.timeSlot targetDose;
     HistoryEntry.date := Dose.date targetDose;
     HistoryEntry.timestamp := JSDate.toISOString (new_Date env);
     HistoryEntry.status := status |}.

(** [{ ...d, status }] *)
Definition withStatus (d : Dose.t) (status : DoseStatus) : Dose.t :=
  {| Dose.id := Dose.id d;
     Dose.medicineId := Dose.medicineId d;
     Dose.medicineName := Dose.medicineName d;
     Dose.date := Dose.date d;
     Dose.timeSlot := Dose.timeSlot d;
     Dose.status := status |}.

Definition toggleDose (env : ToggleEnv) (doseId : string) (status : DoseStatus)
    (state : CareState.t) : CareState.t :=
  match List.find (λ d, bool_decide (Dose.id d = doseId)) (doses state) with
  | None => state
  | Some targetDose =>
      if bool_decide (Dose.status targetDose = status) then state
      else
        {| medicines := medicines state;
           doses := map (λ d, if bool_decide (Dose.id d = doseId)
                              then withStatus d status else d)
                        (doses state);
           history := take 100 (historyEntry env targetDose status :: history state);
           remedies := remedies state;
           lastExtractionDate := lastExtractionDate state |}
  end.

Definition clearAll (state : CareState.t) : CareState.t :=
  {| medicines := []; doses := []; history := []; remedies := [];
     lastExtractionDate := None |}.

(** ** Runs of the store *)

Inductive Op :=
  | AddMedicines (newMedicines : list Medicine.t)
  | ToggleDose (env : ToggleEnv) (doseId : string) (status : DoseStatus)
  | ClearAll
  | GenerateSchedule (today now : Z) (newMedicines : list Medicine.t)
  | AddRemedy (name : string)
  | RemoveRemedy (name : string)
  | UpdateInteractions (interactions : gmap string Interaction.t).

Section Runs.
Variable LocalTZA : Z -> bool -> Z.

Definition step (state : CareState.t) (op : Op) : CareState.t :=
  match op with
  | AddMedicines ms => addMedicines ms state
  | ToggleDose env doseId status => toggleDose env doseId status state
  | ClearAll => clearAll state
  | GenerateSchedule today now ms => generateSchedule LocalTZA today now ms state
  | AddRemedy name => addRemedy name state
  | RemoveRemedy name => removeRemedy name state
  | UpdateInteractions interactions => updateInteractions interactions state
  end.

Definition run (ops : list Op) (state : CareState.t) : CareState.t :=
  fold_left step ops state.

(** The states the store can be in. *)
Definition Reachable (state : CareState.t) : Prop :=
  ∃ ops, run ops initialState = state.

(** The ledger as the specification describes it, kept without a bound:
    every status-changing transition files its entry in front, a full
    reset empties the log, nothing else touches it. *)
Definition transitionEntry (state : CareState.t) (op : Op)
  : option HistoryEntry.t :=
  match op with
  | ToggleDose env doseId status =>
      match List.find (λ d, bool_decide (Dose.id d = doseId)) (doses state) with
      | Some targetDose =>
          if bool_decide (Dose.status targetDose = status) then None
          else Some (historyEntry env targetDose status)
      | None => None
      end
  | _ => None
  end.

Definition ledgerStep (state : CareState.t) (log : list HistoryEntry.t)
    (op : Op) : list HistoryEntry.t :=
  match op with
  | ClearAll => []
  | _ => match transitionEntry state op with
         | Some entry => entry :: log
         | None => log
         end
  end.

Fixpoint unboundedLedger (ops : list Op) (state : CareState.t)
    (log : list HistoryEntry.t) : list HistoryEntry.t :=
  match ops with
  | [] => log
  | op :: ops' => unboundedLedger ops' (step state op) (ledgerStep state log op)
  end.
End Runs.

(** ** Auxiliary definitions used in the statements *)

Definition isDigit (c : ascii) : bool :=
  match c with
  | "0" | "1" | "2" | "3" | "4" | "5" | "6" | "7" | "8" | "9" => true
  | _ => false
  end%char.

(** The dose pushed for [med] at the date string [dateStr] and slot [slot]. *)
Definition scheduledDose (med : Medicine.t) (dateStr slot : string) : Dose.t :=
  {| Dose.id := doseId (Medicine.id med) dateStr slot;
     Dose.medicineId := Medicine.id med;
     Dose.medicineName := Medicine.name med;
     Dose.date := dateStr;
     Dose.timeSlot := slot;
     Dose.status := PENDING |}.

(** The number of time slots the medicines of a list declare. *)
Definition slotCount (ms : list Medicine.t) : nat :=
  length (flat_map Medicine.timings ms).

(** A host whose local time is UTC. *)
Definition utcTZA (t : Z) (isUTC : bool) : Z := 0%Z.

(** A host in the Europe/London zone around the start of summer time 2026
    (2026-03-29T01:00:00Z): local time is UTC before the change and one hour
    ahead from it on; a local time in the skipped hour is read with the
    offset before the change. *)
Definition londonTZA (t : Z) (isUTC : bool) : Z :=
  if isUTC then (if t <? 1774746000000 then 0 else 3600000)%Z
  else (if t <? 1774746000000 + 3600000 then 0 else 3600000)%Z.

Definition sampleMedicine : Medicine.t :=
  {| Medicine.id := "m1";
     Medicine.name := "Amoxicillin";
     Medicine.dosage := "500mg";
     Medicine.frequency := "Once daily";
     Medicine.timings := ["Morning"];
     Medicine.durationDays := 5;
     Medicine.potentialInteractions := None |}.

(** A medicine whose id is the name of a property every object inherits. *)
Definition prototypeKeyMedicine : Medicine.t :=
  {| Medicine.id := "constructor";
     Medicine.name := "Paracetamol";
     Medicine.dosage := "500mg";
     Medicine.frequency := "Once daily";
     Medicine.timings := ["Night"];
     Medicine.durationDays := 3;
     Medicine.potentialInteractions := None |}.

Definition sampleEnv : ToggleEnv :=
  {| Date_now := 1774657800000; random36 := "k3j9x0q1z"; new_Date := 1774657800001 |}.

(** 2026-03-28T00:30:00Z *)
Definition sampleToday : Z := 1774657800000.

(** A schedule, one dose marked taken, then the same medicine list scheduled
    again on the same day: the second schedule repeats the identifiers of the
    first. *)
Definition rescheduleOps : list Op :=
  [ GenerateSchedule sampleToday sampleToday [sampleMedicine];
    ToggleDose sampleEnv "m1-2026-03-28-Morning" TAKEN;
    GenerateSchedule sampleToday sampleToday [sampleMedicine] ].

Definition rescheduledState : CareState.t := run utcTZA rescheduleOps initialState.

(** Two medicines whose identifiers and slots differ only in where the
    date-like text sits. *)
Definition shortIdMedicine : Medicine.t :=
  {| Medicine.id := "a";
     Medicine.name := "Aspirin";
     Medicine.dosage := "75mg";
     Medicine.frequency := "Once daily";
     Medicine.timings := ["2026-03-28-x"];
     Medicine.durationDays := 10;
     Medicine.potentialInteractions := None |}.

Definition longIdMedicine : Medicine.t :=
  {| Medicine.id := "a-2026-03-28";
     Medicine.name := "Ibuprofen";
     Medicine.dosage := "200mg";
     Medicine.frequency := "Once daily";
     Medicine.timings := ["x"];
     Medicine.durationDays := 10;
     Medicine.potentialInteractions := None |}.

(** [n] transitions of one dose, marked taken and pending in turn; the [k]-th
    call reads the clock [k] milliseconds after [sampleToday]. *)
Definition alternatingToggles (n : nat) : list Op :=
  map (λ k, ToggleDose
              {| Date_now := sampleToday + Z.of_nat k;
                 random36 := "k3j9x0q1z";
                 new_Date := sampleToday + Z.of_nat k |}
              "m1-2026-03-28-Morning"
              (if Nat.even k then TAKEN else PENDING))
      (seq 0 n).


(** Two doses that differ at most in their status. *)
Definition sameSlot (d d' : Dose.t) : Prop :=
  Dose.id d' = Dose.id d
  /\ Dose.medicineId d' = Dose.medicineId d
  /\ Dose.medicineName d' = Dose.medicineName d
  /\ Dose.date d' = Dose.date d
  /\ Dose.timeSlot d' = Dose.timeSlot d.

(** The time values a [Date] object can hold (ECMA-262, "Time Values and Time
    Range"): 100,000,000 days either side of the epoch. *)
Definition validTime (t : Z) : Prop :=
  (-8640000000000000 <= t <= 8640000000000000)%Z.

(** ** geminiService.ts

    The two functions call the model and read its reply with [JSON.parse];
    neither is part of the code embedded here.  A call is modelled by its
    outcome: the promise is rejected, the reply has no text, the text does
    not parse, or it parses to a value. *)

Inductive ModelReply (A : Type) : Type :=
  | CallRejected
  | NoText
  | Unparsable
  | Json (value : A).

Arguments CallRejected {A}.
Arguments NoText {A}.
Arguments Unparsable {A}.
Arguments Json {A} value.

(** An element of the parsed reply of [parsePrescription]. *)
Module ParsedMedicine.
Record t := mk {
  name : string;
  dosage : string;
  frequency : string;
  timings : list string;
  durationDays : Z
}.
End ParsedMedicine.

(** [parsePrescription]: [None] stands for the rethrown error.  [Date_now i]
    is the reading of [Date.now()] in the callback of element [i];
    [m.durationDays || 10] replaces the falsy number 0. *)
Definition parsePrescription (reply : ModelReply (list ParsedMedicine.t))
    (Date_now : nat -> Z) : option (list Medicine.t) :=
  match reply with
  | Json parsed =>
      Some (imap (λ index m,
                    {| Medicine.id :=
                         "med-" +:+ Number_toString (Date_now index) +:+ "-"
                           +:+ Number_toString (Z.of_nat index);
                       Medicine.name := ParsedMedicine.name m;
                       Medicine.dosage := ParsedMedicine.dosage m;
                       Medicine.frequency := ParsedMedicine.frequency m;
                       Medicine.timings := ParsedMedicine.timings m;
                       Medicine.durationDays :=
                         if bool_decide (ParsedMedicine.durationDays m = 0%Z)
                         then 10%Z else ParsedMedicine.durationDays m;
                       Medicine.potentialInteractions := None |})
                 parsed)
  | _ => None
  end.

(** [l.join(sep)] *)
Fixpoint join (sep : string) (l : list string) : string :=
  match l with
  | [] => ""
  | [s] => s
  | s :: l' => s +:+ sep +:+ join sep l'
  end.

Definition newline : string := String "010"%char "".
Definition quote : string := String "034"%char "".

(** The prompt of [checkInteractions], line by line. *)
Definition interactionPrompt (medicines : list Medicine.t) (remedies : list string)
  : string :=
  join newline
    [ "Act as a clinical pharmacist. Analyze potential interactions between these prescribed medicines and the listed OTC remedies/natural supplements.";
      "  ";
      "  Prescribed Medicines:";
      "  " +:+ join newline
                 (map (λ m, "- " +:+ Medicine.name m +:+ " (" +:+ Medicine.dosage m +:+ ")")
                      medicines);
      "  ";
      "  OTC/Remedies:";
      "  " +:+ join newline (map (λ r, "- " +:+ r) remedies);
      "  ";
      "  Identify any dangerous interactions or advice.";
      "  Return a JSON object where the keys are the medicine IDs and the values are objects with:";
      "  - " +:+ quote +:+ "severity" +:+ quote +:+ ": either " +:+ quote +:+ "high"
        +:+ quote +:+ " (serious interaction) or " +:+ quote +:+ "medium" +:+ quote
        +:+ " (precautionary advice).";
      "  - " +:+ quote +:+ "summary" +:+ quote
        +:+ ": a short (3-5 words) punchy warning title.";
      "  - " +:+ quote +:+ "detail" +:+ quote
        +:+ ": a full explanation of the interaction and what to do.";
      "";
      "  If no interaction exists for a medicine, do not include its ID.";
      "  Return ONLY the JSON object." ].

(** [checkInteractions]: the prompts sent to the model, and the result.  The
    [catch] turns a rejected call or an unparsable text into the empty
    object. *)
Definition checkInteractions
    (generateContent : string -> ModelReply (gmap string Interaction.t))
    (medicines : list Medicine.t) (remedies : list string)
  : list string * gmap string Interaction.t :=
  if bool_decide (length remedies = 0 \/ length medicines = 0) then ([], ∅)
  else
    let prompt := interactionPrompt medicines remedies in
    ([prompt],
     match generateContent prompt with
     | Json interactions => interactions
     | NoText => ∅
     | CallRejected | Unparsable => ∅
     end).

(** ** App.tsx: the event handlers that drive the store *)

Inductive Toast :=
  | toast_error (message : string)
  | toast_success (message : string).

(** The body of [reader.onloadend] in [handleFileUpload], from the reply of
    the model on.  A rejected [parsePrescription] leaves the callback: no
    toast, no store action. *)
Definition handleFileUpload (LocalTZA : Z -> bool -> Z)
    (reply : ModelReply (list ParsedMedicine.t)) (Date_now : nat -> Z)
    (today now : Z) (state : CareState.t) : option Toast * CareState.t :=
  match parsePrescription reply Date_now with
  | None => (None, state)
  | Some extractedMedicines =>
      if bool_decide (0 < length extractedMedicines)
      then (Some (toast_success
                    ("Schedule updated with "
                       +:+ Number_toString (Z.of_nat (length extractedMedicines))
                       +:+ " items!")),
            generateSchedule LocalTZA today now extractedMedicines state)
      else (Some (toast_error "I couldn't find any clear medicine details."), state)
  end.

(** [handleAddRemedy].  [String.prototype.trim] belongs to the engine, not to
    this repository: the handler takes it as [trim]. *)
Definition handleAddRemedy (trim : string -> string) (remedyInput : string)
    (state : CareState.t) : CareState.t :=
  if bool_decide (trim remedyInput = "") then state
  else addRemedy (trim remedyInput) state.

(** [handleCheckInteractions]: [rendered] is the state the component was
    rendered with (the handler reads [medicines] and [remedies] from it),
    [current] the state of the store when the awaited check resolves.
    Neither [checkInteractions] nor [updateInteractions] throws, so the
    [catch] of the handler is never entered. *)
Definition handleCheckInteractions
    (generateContent : string -> ModelReply (gmap string Interaction.t))
    (rendered current : CareState.t) : list string * Toast * CareState.t :=
  if bool_decide (length (medicines rendered) = 0 \/ length (remedies rendered) = 0)
  then ([], toast_error "Need both prescriptions and OTC remedies to check.", current)
  else
    let '(requests, interactions) :=
      checkInteractions generateContent (medicines rendered) (remedies rendered) in
    let count := size interactions in
    (requests,
     if bool_decide (0 < count)
     then toast_error ("Caution: Found " +:+ Number_toString (Z.of_nat count)
                         +:+ " potential interactions.")
     else toast_success "No critical interactions found.",
     updateInteractions interactions current).

(** [doses.filter(d => d.date === selectedDate)] *)
Definition currentDoses (selectedDate : string) (state : CareState.t) : list Dose.t :=
  filter (λ d, Dose.date d = selectedDate) (doses state).

(** The [onClick] of the two buttons of a dose card. *)
Definition takenButton_onClick (env : ToggleEnv) (dose : Dose.t)
    (state : CareState.t) : CareState.t :=
  let isTaken := bool_decide (Dose.status dose = TAKEN) in
  toggleDose env (Dose.id dose) (if isTaken then PENDING else TAKEN) state.

Definition missedButton_onClick (env : ToggleEnv) (dose : Dose.t)
    (state : CareState.t) : CareState.t :=
  let isMissed := bool_decide (Dose.status dose = MISSED) in
  toggleDose env (Dose.id dose) (if isMissed then PENDING else MISSED) state.

(** Whether the character occurs in the string. *)
Fixpoint occurs (c : ascii) (s : string) : bool :=
  match s with
  | EmptyString => false
  | String c' s' => Ascii.eqb c' c || occurs c s'
  end.

(** ** The store as the app drives it

    The events after which [App.tsx] calls the store: an upload whose
    extraction has resolved, the remedy form, the remove button of a remedy,
    an interaction check that has resolved, the two buttons of a dose card,
    and the confirmed "clear all". *)
Inductive AppEvent :=
  | UploadResolved (reply : ModelReply (list ParsedMedicine.t))
      (Date_now : nat -> Z) (today now : Z)
  | RemedySubmitted (remedyInput : string)
  | RemoveRemedyClicked (r : string)
  | InteractionsChecked
      (generateContent : string -> ModelReply (gmap string Interaction.t))
      (rendered : CareState.t)
  | TakenClicked (env : ToggleEnv) (dose : Dose.t)
  | MissedClicked (env : ToggleEnv) (dose : Dose.t)
  | ClearAllConfirmed.

Definition appStep (LocalTZA : Z -> bool -> Z) (trim : string -> string)
    (state : CareState.t) (event : AppEvent) : CareState.t :=
  match event with
  | UploadResolved reply Date_now today now =>
      (handleFileUpload LocalTZA reply Date_now today now state).2
  | RemedySubmitted remedyInput => handleAddRemedy trim remedyInput state
  | RemoveRemedyClicked r => removeRemedy r state
  | InteractionsChecked generateContent rendered =>
      (handleCheckInteractions generateContent rendered state).2
  | TakenClicked env dose => takenButton_onClick env dose state
  | MissedClicked env dose => missedButton_onClick env dose state
  | ClearAllConfirmed => clearAll state
  end.

Definition appRun (LocalTZA : Z -> bool -> Z) (trim : string -> string)
    (events : list AppEvent) (state : CareState.t) : CareState.t :=
  fold_left (appStep LocalTZA trim) events state.

(** The medicines the app has put into the store. *)
Definition appMedicine (med : Medicine.t) : Prop :=
  String.prefix "med-" (Medicine.id med) = true
  /\ forall key, Medicine.potentialInteractions med <> Some (inheritedProperty key).

Definition sampleParsed : list ParsedMedicine.t :=
  [ {| ParsedMedicine.name := "Amoxicillin";
       ParsedMedicine.dosage := "500mg";
       ParsedMedicine.frequency := "Twice daily";
       ParsedMedicine.timings := ["Morning"; "Night"];
       ParsedMedicine.durationDays := 0 |};
    {| ParsedMedicine.name := "Ibuprofen";
       ParsedMedicine.dosage := "200mg";
       ParsedMedicine.frequency := "Once daily";
       ParsedMedicine.timings := ["Afternoon"];
       ParsedMedicine.durationDays := 5 |} ].

Definition sampleClock (index : nat) : Z := (sampleToday + Z.of_nat index)%Z.

(** The initial value of [selectedDate]:
    [useState(new Date().toISOString().split('T')[0])], for the clock reading
    of the first render. *)
Definition initialSelectedDate (clock : Z) : string :=
  split_head "T" (JSDate.toISOString clock).

(** [Array.from(new Set(array))]: the elements in the order of their first
    occurrence. *)
Definition Set_from (array : list string) : list string :=
  fold_left (λ set x, if bool_decide (x ∈ set) then set else set ++ [x]) array [].

(** The order [sort()] uses without a comparator, on code units. *)
Definition string_le (a b : string) : Prop := String.leb a b = true.

#[global] Instance string_le_dec : RelDecision string_le.
Proof. intros a b. unfold string_le. apply _. Defined.

(** [Array.from(new Set(doses.map(d => d.date))).sort()]: the sorted
    arrangement of the distinct dates. *)
Definition uniqueDates (state : CareState.t) : list string :=
  sorting.merge_sort string_le (Set_from (Dose.date <$> doses state)).

(** * Properties *)

(** ** The calendar *)

Section Calendar.
Import JSDate.
Local Open Scope Z_scope.

Lemma DayFromYear_succ (y : Z) :
  365 <= DayFromYear (y + 1) - DayFromYear y <= 366.
Proof.
  unfold DayFromYear.
  replace (y + 1 - 1969) with (y - 1969 + 1) by lia.
  replace (y + 1 - 1901) with (y - 1901 + 1) by lia.
  replace (y + 1 - 1601) with (y - 1601 + 1) by lia.
  Z.div_mod_to_equations. lia.
Qed.

(** [YearFromDay d] is the year that contains day [d]: ECMA-262 defines
    [YearFromTime] as the largest [y] with [TimeFromYear y <= t]. *)
Lemma YearFromDay_spec (d : Z) :
  DayFromYear (YearFromDay d) <= d < DayFromYear (YearFromDay d + 1).
Proof.
  unfold YearFromDay.
  set (e := 1970 + 400 * d / 146097).
  pose proof (DayFromYear_succ e) as He.
  pose proof (DayFromYear_succ (e - 1)) as He1.
  pose proof (DayFromYear_succ (e + 1)) as He2.
  replace (e - 1 + 1) with e in He1 by lia.
  assert (DayFromYear (e - 1) <= d < DayFromYear (e + 1 + 1)) as Hrange.
  { clear He He1 He2. subst e. unfold DayFromYear.
    Z.div_mod_to_equations. lia. }
  destruct (Z.leb_spec (DayFromYear (e + 1)) d).
  - lia.
  - destruct (Z.leb_spec (DayFromYear e) d).
    + lia.
    + replace (e - 1 + 1) with e by lia. lia.
Qed.

Lemma DayWithinYear_range (t : Z) : 0 <= DayWithinYear t < 365 + InLeapYear t.
Proof.
  unfold DayWithinYear, InLeapYear, InLeapYearOf, DaysInYear, YearFromTime.
  pose proof (YearFromDay_spec (Day t)). lia.
Qed.

Lemma InLeapYear_range (t : Z) : 0 <= InLeapYear t <= 1.
Proof.
  unfold InLeapYear, InLeapYearOf, DaysInYear.
  pose proof (DayFromYear_succ (YearFromTime t)). lia.
Qed.

Lemma MonthFromTime_range (t : Z) : 0 <= MonthFromTime t <= 11.
Proof.
  unfold MonthFromTime.
  repeat match goal with |- context [?a <? ?b] => destruct (a <? b) end; lia.
Qed.

(** The day of the month lies within the month. *)
Lemma DateFromTime_range (t : Z) : 1 <= DateFromTime t <= 31.
Proof.
  pose proof (DayWithinYear_range t). pose proof (InLeapYear_range t).
  unfold DateFromTime, MonthFromTime.
  repeat match goal with
         | |- context [?a <? ?b] => destruct (Z.ltb_spec a b)
         end; simpl; lia.
Qed.

(** Rebuilding the day number from a time value's own year and month and
    its day of the month moved by [i] moves the day number by [i]. *)
Lemma MakeDay_shift (t i : Z) :
  MakeDay (YearFromTime t) (MonthFromTime t) (DateFromTime t + i) = Day t + i.
Proof.
  pose proof (MonthFromTime_range t) as Hm.
  unfold MakeDay.
  rewrite (Z.div_small (MonthFromTime t) 12) by lia.
  rewrite (Z.mod_small (MonthFromTime t) 12) by lia.
  rewrite Z.add_0_r.
  unfold DateFromTime, DayWithinYear, InLeapYear. lia.
Qed.

Lemma Day_MakeDate (day time : Z) :
  0 <= time < msPerDay -> Day (MakeDate day time) = day.
Proof.
  intros Ht. unfold Day, MakeDate.
  rewrite Z.add_comm, Z.div_add by (unfold msPerDay; lia).
  rewrite Z.div_small by exact Ht. lia.
Qed.

Lemma MakeDate_Day (t : Z) : MakeDate (Day t) (TimeWithinDay t) = t.
Proof.
  unfold MakeDate, Day, TimeWithinDay.
  pose proof (Z.div_mod t msPerDay). unfold msPerDay in *. lia.
Qed.

(** Where local time is at a fixed offset from UTC, [setDate] on
    [getDate() + i] moves the time value by [i] whole days. *)
Lemma setDate_fixed_offset (LocalTZA : Z -> bool -> Z) (c tv i : Z) :
  (forall t isUTC, LocalTZA t isUTC = c) ->
  setDate LocalTZA tv (getDate LocalTZA tv + i) = tv + i * msPerDay.
Proof.
  intros Hc. unfold setDate, getDate, LocalTime, UTC.
  rewrite !Hc, MakeDay_shift.
  pose proof (MakeDate_Day (tv + c)) as H.
  unfold MakeDate in *. lia.
Qed.

Lemma Day_shift (t i : Z) : Day (t + i * msPerDay) = Day t + i.
Proof. unfold Day. rewrite Z.div_add by (unfold msPerDay; lia). reflexivity. Qed.

(** The calendar date of a time value depends on its day number only. *)
Lemma isoDate_Day (t : Z) : isoDate t = isoDateOfDay (Day t).
Proof.
  unfold isoDateOfDay.
  assert (Day (Day t * msPerDay) = Day t) as HD.
  { unfold Day. rewrite Z.div_mul by (unfold msPerDay; lia). reflexivity. }
  unfold isoDate, DateFromTime, MonthFromTime, InLeapYear, DayWithinYear,
    YearFromTime.
  rewrite HD. reflexivity.
Qed.
End Calendar.

(** ** Formatting *)

Section Formatting.
Import JSDate.
Local Open Scope Z_scope.

Lemma isDigit_digitChar (d : Z) : isDigit (digitChar d) = true.
Proof.
  unfold digitChar.
  destruct d as [|p|p]; [reflexivity | | reflexivity].
  do 4 (try (destruct p as [p|p|])); reflexivity.
Qed.

Lemma digitChar_eqb (d : Z) (c : ascii) :
  isDigit c = false -> Ascii.eqb (digitChar d) c = false.
Proof.
  intros Hc. apply Ascii.eqb_neq. intros <-.
  rewrite isDigit_digitChar in Hc. discriminate.
Qed.

(** [toISOString().split('T')[0]] is the calendar date. *)
Lemma split_head_toISOString (t : Z) :
  split_head "T" (toISOString t) = isoDate t.
Proof.
  assert (forall d, Ascii.eqb (digitChar d) "T" = false) as HT.
  { intros d. apply digitChar_eqb. reflexivity. }
  unfold toISOString, isoDate, yearString.
  destruct (_ && _); [| destruct (_ <=? _)];
    cbv [digits String.append]; cbn [split_head]; rewrite ?HT; reflexivity.
Qed.

(** A calendar date is ten characters starting with a digit, or thirteen
    starting with a sign. *)
Lemma isoDate_shape (t : Z) :
  (String.length (isoDate t) = 10%nat /\
     exists d r, isoDate t = String (digitChar d) r) \/
  (String.length (isoDate t) = 13%nat /\
     exists c r, isoDate t = String c r /\ isDigit c = false).
Proof.
  unfold isoDate, yearString.
  destruct (_ && _); [| destruct (_ <=? _)]; cbv [digits String.append].
  - left. split; [reflexivity | eauto].
  - right. split; [reflexivity | eauto].
  - right. split; [reflexivity | eauto].
Qed.

Example toISOString_epoch : toISOString 0 = "1970-01-01T00:00:00.000Z".
Proof. reflexivity. Qed.

Example toISOString_leap_day :
  toISOString 1709164800123 = "2024-02-29T00:00:00.123Z".
Proof. vm_compute. reflexivity. Qed.

Example toISOString_before_epoch :
  toISOString (-1) = "1969-12-31T23:59:59.999Z".
Proof. vm_compute. reflexivity. Qed.

Example toISOString_sampleToday :
  toISOString sampleToday = "2026-03-28T00:30:00.000Z".
Proof. vm_compute. reflexivity. Qed.

Example toISOString_expanded_year :
  toISOString 253402300800000 = "+010000-01-01T00:00:00.000Z".
Proof. vm_compute. reflexivity. Qed.
End Formatting.

(** ** Schedule generation *)

Section ScheduleProperties.
Variable LocalTZA : Z -> bool -> Z.

(** Pushing the images of a list one group at a time is appending their
    concatenation. *)
Lemma fold_left_push {A B : Type} (f : A -> list B) (l : list A) (acc : list B) :
  fold_left (λ acc x, acc ++ f x) l acc = acc ++ flat_map f l.
Proof.
  revert acc. induction l as [|x l IH]; intros acc; simpl.
  - by rewrite app_nil_r.
  - by rewrite IH, app_assoc.
Qed.

Lemma pushSlots_app (med : Medicine.t) (ds : string) (acc : list Dose.t) :
  pushSlots med ds acc = acc ++ map (scheduledDose med ds) (Medicine.timings med).
Proof.
  unfold pushSlots.
  change (fold_left (λ acc slot, acc ++ (λ s, [scheduledDose med ds s]) slot)
            (Medicine.timings med) acc
          = acc ++ map (scheduledDose med ds) (Medicine.timings med)).
  rewrite fold_left_push. reflexivity.
Qed.

Lemma pushDays_app (today : Z) (med : Medicine.t) (acc : list Dose.t) :
  pushDays LocalTZA today med acc =
  acc ++ flat_map (λ i, map (scheduledDose med (dateStr LocalTZA today i))
                            (Medicine.timings med))
                  (seq 0 10).
Proof.
  unfold pushDays. rewrite <- fold_left_push.
  generalize (seq 0 10). intros l. revert acc.
  induction l as [|i l IH]; intros acc; simpl; [done |].
  by rewrite pushSlots_app, IH.
Qed.

(** The doses of one call, as nested groups: by medicine in input order,
    then by day offset 0..9, then by slot in declaration order. *)
Lemma newDoses_grouped (today : Z) (newMedicines : list Medicine.t) :
  newDoses LocalTZA today newMedicines =
  flat_map (λ med,
     flat_map (λ i, map (scheduledDose med (dateStr LocalTZA today i))
                        (Medicine.timings med))
              (seq 0 10))
    newMedicines.
Proof.
  unfold newDoses.
  rewrite <- (app_nil_l (flat_map _ _)), <- fold_left_push.
  generalize (@nil Dose.t). induction newMedicines as [|m l IH]; intros acc; simpl.
  - done.
  - by rewrite pushDays_app, IH.
Qed.

Lemma length_flat_map_const {A B : Type} (f : A -> list B) (l : list A) (n : nat) :
  (forall x, length (f x) = n) -> length (flat_map f l) = length l * n.
Proof.
  intros Hf. induction l as [|x l IH]; simpl; [done |].
  rewrite length_app, Hf, IH. lia.
Qed.

(** Ten doses per declared slot. *)
Lemma length_newDoses (today : Z) (newMedicines : list Medicine.t) :
  length (newDoses LocalTZA today newMedicines) = 10 * slotCount newMedicines.
Proof.
  rewrite newDoses_grouped. unfold slotCount.
  induction newMedicines as [|m l IH]; [done |].
  cbn [flat_map]. rewrite !length_app, IH.
  rewrite (length_flat_map_const _ _ (length (Medicine.timings m)))
    by (intros; apply length_map).
  rewrite length_seq. lia.
Qed.

(** The schedule does not read [durationDays]. *)
Lemma newDoses_durationDays (today : Z) (newMedicines : list Medicine.t)
    (duration : Medicine.t -> Z) :
  newDoses LocalTZA today
    (map (λ med,
            {| Medicine.id := Medicine.id med;
               Medicine.name := Medicine.name med;
               Medicine.dosage := Medicine.dosage med;
               Medicine.frequency := Medicine.frequency med;
               Medicine.timings := Medicine.timings med;
               Medicine.durationDays := duration med;
               Medicine.potentialInteractions := Medicine.potentialInteractions med |})
         newMedicines)
  = newDoses LocalTZA today newMedicines.
Proof.
  rewrite !newDoses_grouped.
  induction newMedicines as [|m l IH]; [done |].
  cbn [map flat_map]. by rewrite IH.
Qed.

(** Where the host keeps one offset from UTC, the date string of day
    offset [i] is the calendar date [i] days after the UTC date of
    [today]. *)
Lemma dateStr_fixed_offset (c today : Z) (i : nat) :
  (forall t isUTC, LocalTZA t isUTC = c) ->
  dateStr LocalTZA today i = JSDate.isoDateOfDay (JSDate.Day today + Z.of_nat i).
Proof.
  intros Hc. unfold dateStr.
  rewrite (setDate_fixed_offset LocalTZA c) by exact Hc.
  by rewrite split_head_toISOString, isoDate_Day, Day_shift.
Qed.

(** The schedule of a host with one offset from UTC: for each medicine, each
    day offset 0..9 and each slot, in this order, one pending dose dated
    [i] days after the UTC date of [today]. *)
Lemma newDoses_fixed_offset (c today : Z) (newMedicines : list Medicine.t) :
  (forall t isUTC, LocalTZA t isUTC = c) ->
  newDoses LocalTZA today newMedicines =
  flat_map (λ med,
     flat_map (λ i, map (scheduledDose med
                           (JSDate.isoDateOfDay (JSDate.Day today + Z.of_nat i)))
                        (Medicine.timings med))
              (seq 0 10))
    newMedicines.
Proof.
  intros Hc. rewrite newDoses_grouped.
  apply flat_map_ext. intros med. apply flat_map_ext. intros i.
  by rewrite (dateStr_fixed_offset c).
Qed.

(** C8: [generateSchedule] appends.  The previous medicines and doses are a
    prefix of the new lists; the new doses follow grouped by medicine in
    input order, then by day offset ascending, then by slot in declaration
    order; history and remedies are untouched; [lastExtractionDate] is the
    time of the call; two calls in a row add the doses of both. *)
Theorem generateSchedule_appends (today now today' now' : Z)
    (newMedicines newMedicines' : list Medicine.t) (state : CareState.t) :
  let state' := generateSchedule LocalTZA today now newMedicines state in
  let state'' := generateSchedule LocalTZA today' now' newMedicines' state' in
  medicines state' = medicines state ++ newMedicines
  /\ doses state' =
       doses state ++
       flat_map (λ med,
          flat_map (λ i, map (λ slot,
                       {| Dose.id := doseId (Medicine.id med)
                                       (dateStr LocalTZA today i) slot;
                          Dose.medicineId := Medicine.id med;
                          Dose.medicineName := Medicine.name med;
                          Dose.date := dateStr LocalTZA today i;
                          Dose.timeSlot := slot;
                          Dose.status := PENDING |})
                     (Medicine.timings med))
                   (seq 0 10))
         newMedicines
  /\ history state' = history state
  /\ remedies state' = remedies state
  /\ lastExtractionDate state' = Some (JSDate.toISOString now)
  /\ doses state'' = doses state ++ newDoses LocalTZA today newMedicines
                       ++ newDoses LocalTZA today' newMedicines'
  /\ length (doses state'') =
       length (doses state) + 10 * slotCount newMedicines
         + 10 * slotCount newMedicines'.
Proof.
  simpl. repeat split.
  - by rewrite newDoses_grouped.
  - by rewrite <- app_assoc.
  - rewrite !length_app, !length_newDoses. lia.
Qed.
End ScheduleProperties.

(** C1 (defect of the code): the date of the dose at day offset [i] is meant
    to be the calendar date [i] days after today.  The loop moves the date in
    local time ([setDate]) and reads it back in UTC ([toISOString]); on a host
    whose offset from UTC changes within the ten days the two disagree.
    In London at 2026-03-28T00:30Z, the day before summer time starts, the
    offsets 1 and 2 both get 2026-03-29, every later offset is one day short,
    and 2026-04-06 is missing. *)
Theorem generateSchedule_summer_time_dates :
  let state' :=
    generateSchedule londonTZA sampleToday sampleToday [sampleMedicine] initialState in
  JSDate.isoDate sampleToday = "2026-03-28"
  /\ map Dose.date (doses state') =
       ["2026-03-28"; "2026-03-29"; "2026-03-29"; "2026-03-30"; "2026-03-31";
        "2026-04-01"; "2026-04-02"; "2026-04-03"; "2026-04-04"; "2026-04-05"]
  /\ map (λ i, JSDate.isoDateOfDay (JSDate.Day sampleToday + Z.of_nat i)) (seq 0 10) =
       ["2026-03-28"; "2026-03-29"; "2026-03-30"; "2026-03-31"; "2026-04-01";
        "2026-04-02"; "2026-04-03"; "2026-04-04"; "2026-04-05"; "2026-04-06"]
  /\ map Dose.id (doses state') =
       ["m1-2026-03-28-Morning"; "m1-2026-03-29-Morning"; "m1-2026-03-29-Morning";
        "m1-2026-03-30-Morning"; "m1-2026-03-31-Morning"; "m1-2026-04-01-Morning";
        "m1-2026-04-02-Morning"; "m1-2026-04-03-Morning"; "m1-2026-04-04-Morning";
        "m1-2026-04-05-Morning"].
Proof. vm_compute. done. Qed.

(** The same call on a host that stays on UTC gives the ten dates. *)
Example generateSchedule_utc_dates :
  map Dose.date
    (doses (generateSchedule utcTZA sampleToday sampleToday [sampleMedicine] initialState)) =
  ["2026-03-28"; "2026-03-29"; "2026-03-30"; "2026-03-31"; "2026-04-01";
   "2026-04-02"; "2026-04-03"; "2026-04-04"; "2026-04-05"; "2026-04-06"].
Proof. vm_compute. done. Qed.

(** ** Dose identifiers *)

Section DoseIdentifiers.

Lemma prefix_longer (a b : string) :
  String.length b < String.length a -> String.prefix a b = false.
Proof.
  revert b. induction a as [|c a IH]; intros [|c' b] Hlen; simpl in *;
    try lia; try done.
  destruct (ascii_dec c c'); [apply IH; lia | done].
Qed.

Lemma append_empty (s : string) : "" +:+ s = s.
Proof. reflexivity. Qed.

Lemma append_String (c : ascii) (a s : string) :
  String c a +:+ s = String c (a +:+ s).
Proof. reflexivity. Qed.

Lemma prefix_String (a b : ascii) (s1 s2 : string) :
  String.prefix (String a s1) (String b s2) =
  if ascii_dec a b then String.prefix s1 s2 else false.
Proof. reflexivity. Qed.

Lemma length_append (a b : string) :
  String.length (a +:+ b) = String.length a + String.length b.
Proof.
  induction a as [|c a IH]; [done |].
  rewrite append_String. simpl. by rewrite IH.
Qed.

(** Two texts joined by a hyphen split back in one way only, as long as
    neither head followed by the hyphen starts the other head. *)
Lemma hyphen_join_inj (a1 a2 r1 r2 : string) :
  String.prefix (a1 +:+ "-") a2 = false ->
  String.prefix (a2 +:+ "-") a1 = false ->
  a1 +:+ "-" +:+ r1 = a2 +:+ "-" +:+ r2 ->
  a1 = a2 /\ r1 = r2.
Proof.
  revert a2. induction a1 as [|c a1 IH]; intros [|c' a2] H12 H21 Heq;
    repeat (rewrite append_String in * || rewrite append_empty in * ).
  - by injection Heq as ->.
  - injection Heq as <- _. rewrite prefix_String in H12.
    destruct (ascii_dec "-" "-") as [_|]; [| done].
    destruct a2; discriminate H12.
  - injection Heq as -> _. rewrite prefix_String in H21.
    destruct (ascii_dec "-" "-") as [_|]; [| done].
    destruct a1; discriminate H21.
  - injection Heq as -> Heq. rewrite prefix_String in H12, H21.
    destruct (ascii_dec c' c') as [_|]; [| done].
    destruct (IH a2 H12 H21 Heq) as [-> ->]. done.
Qed.

(** Calendar dates followed by a hyphen never start one another. *)
Lemma isoDate_join_inj (t1 t2 : Z) (s1 s2 : string) :
  JSDate.isoDate t1 +:+ "-" +:+ s1 = JSDate.isoDate t2 +:+ "-" +:+ s2 ->
  JSDate.isoDate t1 = JSDate.isoDate t2 /\ s1 = s2.
Proof.
  intros Heq.
  destruct (decide (String.length (JSDate.isoDate t1)
                    = String.length (JSDate.isoDate t2))) as [Hlen|Hlen].
  - apply hyphen_join_inj; [| | done];
      apply prefix_longer; rewrite length_append; simpl; lia.
  - exfalso.
    destruct (isoDate_shape t1) as [[L1 (d1 & r1 & E1)]|[L1 (c1 & r1 & E1 & D1)]],
             (isoDate_shape t2) as [[L2 (d2 & r2 & E2)]|[L2 (c2 & r2 & E2 & D2)]];
      try lia; rewrite E1, E2 in Heq; simpl in Heq; injection Heq as Hc _.
    + rewrite <- Hc, isDigit_digitChar in D2. done.
    + rewrite Hc, isDigit_digitChar in D1. done.
Qed.

(** Every scheduled dose is the dose of a medicine of the list, a day
    offset and a slot of that medicine. *)
Lemma elem_of_newDoses (LocalTZA : Z -> bool -> Z) (today : Z)
    (newMedicines : list Medicine.t) (x : Dose.t) :
  x ∈ newDoses LocalTZA today newMedicines ->
  exists med i slot,
    med ∈ newMedicines /\ i < 10 /\ slot ∈ Medicine.timings med /\
    x = scheduledDose med (dateStr LocalTZA today i) slot.
Proof.
  rewrite newDoses_grouped, list_elem_of_In, in_flat_map.
  intros (med & Hmed & Hx). apply in_flat_map in Hx as (i & Hi & Hx).
  apply in_map_iff in Hx as (slot & <- & Hslot).
  exists med, i, slot. rewrite !list_elem_of_In.
  apply in_seq in Hi. repeat split; [done | lia | done].
Qed.

Lemma dateStr_isoDate (LocalTZA : Z -> bool -> Z) (today : Z) (i : nat) :
  exists t, dateStr LocalTZA today i = JSDate.isoDate t.
Proof. unfold dateStr. eexists. apply split_head_toISOString. Qed.

(** C5, as the code has it: the identifier of a scheduled dose is a
    function of its medicine id, date and slot, so doses scheduled for the
    same triple by any two calls share their identifier; and two scheduled
    doses with the same identifier have the same triple whenever neither
    medicine id followed by a hyphen starts the other medicine id. *)
Theorem doseId_deterministic_injective
    (LocalTZA1 LocalTZA2 : Z -> bool -> Z) (today1 today2 : Z)
    (medicines1 medicines2 : list Medicine.t) (x y : Dose.t) :
  x ∈ newDoses LocalTZA1 today1 medicines1 ->
  y ∈ newDoses LocalTZA2 today2 medicines2 ->
  Dose.id x = doseId (Dose.medicineId x) (Dose.date x) (Dose.timeSlot x)
  /\ (Dose.medicineId x = Dose.medicineId y ->
      Dose.date x = Dose.date y ->
      Dose.timeSlot x = Dose.timeSlot y ->
      Dose.id x = Dose.id y)
  /\ (String.prefix (Dose.medicineId x +:+ "-") (Dose.medicineId y) = false ->
      String.prefix (Dose.medicineId y +:+ "-") (Dose.medicineId x) = false ->
      Dose.id x = Dose.id y ->
      Dose.medicineId x = Dose.medicineId y
      /\ Dose.date x = Dose.date y
      /\ Dose.timeSlot x = Dose.timeSlot y).
Proof.
  intros Hx Hy.
  apply elem_of_newDoses in Hx as (m1 & i1 & s1 & _ & _ & _ & ->).
  apply elem_of_newDoses in Hy as (m2 & i2 & s2 & _ & _ & _ & ->).
  destruct (dateStr_isoDate LocalTZA1 today1 i1) as [t1 ->].
  destruct (dateStr_isoDate LocalTZA2 today2 i2) as [t2 ->].
  unfold scheduledDose.
  cbn [Dose.id Dose.medicineId Dose.date Dose.timeSlot].
  split; [reflexivity |]. split.
  - intros Hm Hd Hs. by rewrite Hm, Hd, Hs.
  - intros H12 H21 Heq. unfold doseId in Heq.
    apply hyphen_join_inj in Heq as [Hm Heq]; [| done | done].
    apply isoDate_join_inj in Heq as [Hd Hs]. done.
Qed.

Lemma doseId_deterministic_injective_witness :
  let x := scheduledDose sampleMedicine "2026-03-28" "Morning" in
  let y := scheduledDose sampleMedicine "2026-03-29" "Morning" in
  x ∈ newDoses utcTZA sampleToday [sampleMedicine]
  /\ y ∈ newDoses londonTZA sampleToday [sampleMedicine]
  /\ Dose.id x = doseId (Dose.medicineId x) (Dose.date x) (Dose.timeSlot x)
  /\ (Dose.medicineId x = Dose.medicineId y ->
      Dose.date x = Dose.date y ->
      Dose.timeSlot x = Dose.timeSlot y ->
      Dose.id x = Dose.id y)
  /\ (String.prefix (Dose.medicineId x +:+ "-") (Dose.medicineId y) = false ->
      String.prefix (Dose.medicineId y +:+ "-") (Dose.medicineId x) = false ->
      Dose.id x = Dose.id y ->
      Dose.medicineId x = Dose.medicineId y
      /\ Dose.date x = Dose.date y
      /\ Dose.timeSlot x = Dose.timeSlot y).
Proof.
  intros x y.
  assert (x ∈ newDoses utcTZA sampleToday [sampleMedicine]) as Hx.
  { vm_compute. apply list_elem_of_here. }
  assert (y ∈ newDoses londonTZA sampleToday [sampleMedicine]) as Hy.
  { vm_compute. apply list_elem_of_further, list_elem_of_here. }
  split; [exact Hx |]. split; [exact Hy |].
  exact (doseId_deterministic_injective utcTZA londonTZA sampleToday sampleToday
           [sampleMedicine] [sampleMedicine] x y Hx Hy).
Defined.

(** C5 as stated fails: one call schedules two doses that differ in medicine
    id and slot and get the same identifier. *)
Lemma doseId_collision :
  let scheduled := newDoses utcTZA sampleToday [shortIdMedicine; longIdMedicine] in
  exists x y,
    scheduled !! 0 = Some x /\ scheduled !! 10 = Some y
    /\ (Dose.medicineId x, Dose.date x, Dose.timeSlot x)
         = ("a", "2026-03-28", "2026-03-28-x")
    /\ (Dose.medicineId y, Dose.date y, Dose.timeSlot y)
         = ("a-2026-03-28", "2026-03-28", "x")
    /\ (Dose.medicineId x, Dose.date x, Dose.timeSlot x)
         <> (Dose.medicineId y, Dose.date y, Dose.timeSlot y)
    /\ Dose.id x = Dose.id y.
Proof.
  exists (scheduledDose shortIdMedicine "2026-03-28" "2026-03-28-x"),
         (scheduledDose longIdMedicine "2026-03-28" "x").
  vm_compute. repeat split; try reflexivity. discriminate.
Qed.
End DoseIdentifiers.

(** ** Dose transitions *)

Section ToggleDose.
Implicit Types (env : ToggleEnv) (state : CareState.t) (d target : Dose.t).

(** [find] returns the first dose carrying the identifier. *)
Lemma find_first (doseId : string) (pre post : list Dose.t) target :
  (forall d, d ∈ pre -> Dose.id d <> doseId) ->
  Dose.id target = doseId ->
  List.find (λ d, bool_decide (Dose.id d = doseId)) (pre ++ target :: post)
  = Some target.
Proof.
  intros Hpre Htarget. induction pre as [|d pre IH]; simpl.
  - by rewrite bool_decide_eq_true_2.
  - rewrite bool_decide_eq_false_2 by (apply Hpre; left).
    apply IH. intros d' Hd'. apply Hpre. by right.
Qed.

Lemma find_absent (doseId : string) (l : list Dose.t) :
  (forall d, d ∈ l -> Dose.id d <> doseId) ->
  List.find (λ d, bool_decide (Dose.id d = doseId)) l = None.
Proof.
  intros Hl. induction l as [|d l IH]; simpl; [done |].
  rewrite bool_decide_eq_false_2 by (apply Hl; left).
  apply IH. intros d' Hd'. apply Hl. by right.
Qed.

Lemma map_status_absent (doseId : string) (status : DoseStatus) (l : list Dose.t) :
  (forall d, d ∈ l -> Dose.id d <> doseId) ->
  map (λ d, if bool_decide (Dose.id d = doseId) then withStatus d status else d) l
  = l.
Proof.
  intros Hl. induction l as [|d l IH]; simpl; [done |].
  rewrite bool_decide_eq_false_2 by (apply Hl; left).
  f_equal. apply IH. intros d' Hd'. apply Hl. by right.
Qed.

(** The state is returned as it is when the found dose has the status. *)
Lemma toggleDose_found_same env (doseId : string) (status : DoseStatus) state target :
  List.find (λ d, bool_decide (Dose.id d = doseId)) (doses state) = Some target ->
  Dose.status target = status ->
  toggleDose env doseId status state = state.
Proof.
  intros Hfind Hstatus. unfold toggleDose.
  by rewrite Hfind, bool_decide_eq_true_2.
Qed.

(** C2, as the code has it: when the first dose carrying [doseId] (the one
    the lookup returns) has a status other than [newStatus], [toggleDose]
    gives that dose, and every later dose carrying the same identifier, the
    status [newStatus], leaves the doses before it alone, and puts in front
    of the history one new entry with the medicine name, slot and date of
    that first dose and the status [newStatus], the history cut to its
    first 100 entries; the rest of the state is carried over. *)
Theorem toggleDose_transition env (doseId : string) (newStatus : DoseStatus)
    state (pre post : list Dose.t) target :
  doses state = pre ++ target :: post ->
  (forall d, d ∈ pre -> Dose.id d <> doseId) ->
  Dose.id target = doseId ->
  Dose.status target <> newStatus ->
  let state' := toggleDose env doseId newStatus state in
  doses state' =
    pre ++ withStatus target newStatus
        :: map (λ d, if bool_decide (Dose.id d = doseId)
                     then withStatus d newStatus else d) post
  /\ (exists entry,
        history state' = take 100 (entry :: history state)
        /\ HistoryEntry.medicineName entry = Dose.medicineName target
        /\ HistoryEntry.timeSlot entry = Dose.timeSlot target
        /\ HistoryEntry.date entry = Dose.date target
        /\ HistoryEntry.status entry = newStatus)
  /\ medicines state' = medicines state
  /\ remedies state' = remedies state
  /\ lastExtractionDate state' = lastExtractionDate state.
Proof.
  intros Hdoses Hpre Htarget Hstatus. simpl. unfold toggleDose.
  rewrite Hdoses, find_first by done.
  rewrite bool_decide_eq_false_2 by done. simpl.
  repeat split.
  - rewrite map_app, map_status_absent by done. simpl.
    by rewrite bool_decide_eq_true_2.
  - eexists. split; [reflexivity |]. done.
Qed.

Lemma toggleDose_transition_witness :
  let d := scheduledDose sampleMedicine "2026-03-28" "Morning" in
  let state := {| medicines := [sampleMedicine]; doses := [d]; history := [];
                  remedies := []; lastExtractionDate := None |} in
  let state' := toggleDose sampleEnv (Dose.id d) TAKEN state in
  doses state' = [withStatus d TAKEN]
  /\ (exists entry,
        history state' = take 100 (entry :: history state)
        /\ HistoryEntry.medicineName entry = "Amoxicillin"
        /\ HistoryEntry.timeSlot entry = "Morning"
        /\ HistoryEntry.date entry = "2026-03-28"
        /\ HistoryEntry.status entry = TAKEN)
  /\ medicines state' = medicines state
  /\ remedies state' = remedies state
  /\ lastExtractionDate state' = lastExtractionDate state.
Proof.
  intros d state.
  apply (toggleDose_transition sampleEnv (Dose.id d) TAKEN state [] [] d).
  - reflexivity.
  - intros d' Hd'. inversion Hd'.
  - reflexivity.
  - discriminate.
Defined.

(** C4, as the code has it: [toggleDose doseId s] returns the state as it
    is, doses and history included, when [s] is the status of the first
    dose carrying [doseId], the dose the lookup returns. *)
Theorem toggleDose_same_status env (doseId : string) (s : DoseStatus)
    state (pre post : list Dose.t) target :
  doses state = pre ++ target :: post ->
  (forall d, d ∈ pre -> Dose.id d <> doseId) ->
  Dose.id target = doseId ->
  Dose.status target = s ->
  toggleDose env doseId s state = state.
Proof.
  intros Hdoses Hpre Htarget Hstatus.
  apply (toggleDose_found_same env doseId s state target); [| done].
  rewrite Hdoses. by apply find_first.
Qed.

Lemma toggleDose_same_status_witness :
  let d := scheduledDose sampleMedicine "2026-03-28" "Morning" in
  let state := {| medicines := [sampleMedicine]; doses := [d]; history := [];
                  remedies := []; lastExtractionDate := None |} in
  toggleDose sampleEnv (Dose.id d) PENDING state = state.
Proof.
  intros d state.
  apply (toggleDose_same_status sampleEnv (Dose.id d) PENDING state [] [] d).
  - reflexivity.
  - intros d' Hd'. inversion Hd'.
  - reflexivity.
  - reflexivity.
Defined.

(** Where the identifiers of the doses are pairwise distinct, every dose is
    the one the lookup returns for its identifier. *)
Lemma find_unique (l : list Dose.t) d :
  NoDup (map Dose.id l) -> d ∈ l ->
  List.find (λ d', bool_decide (Dose.id d' = Dose.id d)) l = Some d.
Proof.
  intros Hnd Hd. apply list_elem_of_split in Hd as (pre & post & ->).
  apply find_first; [| done].
  intros d' Hd' Heq. rewrite map_app in Hnd. simpl in Hnd.
  apply NoDup_app in Hnd as (_ & Hdisj & _).
  apply (Hdisj (Dose.id d')).
  - apply list_elem_of_fmap. by exists d'.
  - rewrite Heq. left.
Qed.

(** With pairwise distinct identifiers, C4 holds for every dose. *)
Lemma toggleDose_same_status_unique env state d :
  NoDup (map Dose.id (doses state)) -> d ∈ doses state ->
  toggleDose env (Dose.id d) (Dose.status d) state = state.
Proof.
  intros Hnd Hd.
  apply (toggleDose_found_same env _ _ state d); [by apply find_unique | done].
Qed.

(** C6: [toggleDose] on an identifier no dose carries returns the whole
    state as it is, for every target status. *)
Theorem toggleDose_unknown_id env (doseId : string) (s : DoseStatus) state :
  (forall d, d ∈ doses state -> Dose.id d <> doseId) ->
  toggleDose env doseId s state = state
  /\ medicines (toggleDose env doseId s state) = medicines state
  /\ doses (toggleDose env doseId s state) = doses state
  /\ history (toggleDose env doseId s state) = history state
  /\ remedies (toggleDose env doseId s state) = remedies state
  /\ lastExtractionDate (toggleDose env doseId s state) = lastExtractionDate state.
Proof.
  intros Habsent.
  assert (toggleDose env doseId s state = state) as ->; [| done].
  unfold toggleDose. by rewrite find_absent.
Qed.

Lemma toggleDose_unknown_id_witness :
  let state := run utcTZA [GenerateSchedule sampleToday sampleToday [sampleMedicine]]
                   initialState in
  toggleDose sampleEnv "m1-2026-03-27-Morning" MISSED state = state
  /\ medicines (toggleDose sampleEnv "m1-2026-03-27-Morning" MISSED state)
       = medicines state
  /\ doses (toggleDose sampleEnv "m1-2026-03-27-Morning" MISSED state)
       = doses state
  /\ history (toggleDose sampleEnv "m1-2026-03-27-Morning" MISSED state)
       = history state
  /\ remedies (toggleDose sampleEnv "m1-2026-03-27-Morning" MISSED state)
       = remedies state
  /\ lastExtractionDate (toggleDose sampleEnv "m1-2026-03-27-Morning" MISSED state)
       = lastExtractionDate state.
Proof.
  intros state.
  apply (toggleDose_unknown_id sampleEnv "m1-2026-03-27-Morning" MISSED state).
  apply Forall_forall. vm_compute.
  repeat (constructor; [discriminate |]). constructor.
Defined.

(** C10: [toggleDose] leaves the medicines, the remedies and
    [lastExtractionDate] alone; the doses keep their number and order,
    every dose keeps its identifier, medicine id, name, date and slot, and
    a dose whose identifier is not [doseId] is unchanged. *)
Theorem toggleDose_frame env (doseId : string) (s : DoseStatus) state :
  let state' := toggleDose env doseId s state in
  medicines state' = medicines state
  /\ remedies state' = remedies state
  /\ lastExtractionDate state' = lastExtractionDate state
  /\ length (doses state') = length (doses state)
  /\ forall (k : nat) d, doses state !! k = Some d ->
       exists d', doses state' !! k = Some d'
         /\ Dose.id d' = Dose.id d
         /\ Dose.medicineId d' = Dose.medicineId d
         /\ Dose.medicineName d' = Dose.medicineName d
         /\ Dose.date d' = Dose.date d
         /\ Dose.timeSlot d' = Dose.timeSlot d
         /\ (Dose.id d <> doseId -> d' = d).
Proof.
  assert (forall (k : nat) d, doses state !! k = Some d ->
            exists d', doses state !! k = Some d'
              /\ Dose.id d' = Dose.id d
              /\ Dose.medicineId d' = Dose.medicineId d
              /\ Dose.medicineName d' = Dose.medicineName d
              /\ Dose.date d' = Dose.date d
              /\ Dose.timeSlot d' = Dose.timeSlot d
              /\ (Dose.id d <> doseId -> d' = d)) as Hsame
    by (intros k d Hk; by exists d).
  simpl. unfold toggleDose.
  destruct (List.find _ _) as [target|]; [| done].
  destruct (bool_decide _); [done |]. simpl.
  repeat split; [by rewrite length_map |].
  intros k d Hk.
  change (map ?f ?l) with (f <$> l). rewrite list_lookup_fmap, Hk. simpl.
  eexists. split; [reflexivity |].
  destruct (bool_decide_reflect (Dose.id d = doseId)); simpl; done.
Qed.
End ToggleDose.

(** ** Doses that share an identifier *)

Section SharedIdentifiers.

Lemma rescheduledState_reachable : Reachable utcTZA rescheduledState.
Proof. by exists rescheduleOps. Qed.

(** In [rescheduledState] the doses 0 and 10 carry the same identifier; the
    first is taken, the second pending. *)
Example rescheduledState_doses :
  map (λ d, (Dose.id d, Dose.status d)) (doses rescheduledState) =
  [ ("m1-2026-03-28-Morning", TAKEN); ("m1-2026-03-29-Morning", PENDING);
    ("m1-2026-03-30-Morning", PENDING); ("m1-2026-03-31-Morning", PENDING);
    ("m1-2026-04-01-Morning", PENDING); ("m1-2026-04-02-Morning", PENDING);
    ("m1-2026-04-03-Morning", PENDING); ("m1-2026-04-04-Morning", PENDING);
    ("m1-2026-04-05-Morning", PENDING); ("m1-2026-04-06-Morning", PENDING);
    ("m1-2026-03-28-Morning", PENDING); ("m1-2026-03-29-Morning", PENDING);
    ("m1-2026-03-30-Morning", PENDING); ("m1-2026-03-31-Morning", PENDING);
    ("m1-2026-04-01-Morning", PENDING); ("m1-2026-04-02-Morning", PENDING);
    ("m1-2026-04-03-Morning", PENDING); ("m1-2026-04-04-Morning", PENDING);
    ("m1-2026-04-05-Morning", PENDING); ("m1-2026-04-06-Morning", PENDING) ].
Proof. vm_compute. done. Qed.

(** C2 as stated fails: in a reachable state, a dose with identifier
    [doseId] exists whose status, pending, differs from the requested
    [TAKEN], and [toggleDose] neither sets its status nor files a history
    entry, because the lookup returns an earlier, taken dose carrying the
    same identifier. *)
Lemma toggleDose_transition_shared_id :
  Reachable utcTZA rescheduledState
  /\ exists d,
       doses rescheduledState !! 10 = Some d
       /\ Dose.status d = PENDING
       /\ let state' := toggleDose sampleEnv (Dose.id d) TAKEN rescheduledState in
          doses state' !! 10 = Some d
          /\ history state' = history rescheduledState
          /\ state' = rescheduledState.
Proof.
  split; [apply rescheduledState_reachable |].
  eexists. split; [vm_compute; reflexivity |].
  vm_compute. done.
Qed.

(** C4 as stated fails: in a reachable state, for a dose present in it,
    [toggleDose] with that dose's identifier and that dose's own status,
    pending, changes another dose (the earlier one carrying the same
    identifier goes from taken to pending) and files a history entry. *)
Lemma toggleDose_same_status_shared_id :
  Reachable utcTZA rescheduledState
  /\ exists d,
       doses rescheduledState !! 10 = Some d
       /\ Dose.status d = PENDING
       /\ let state' :=
            toggleDose sampleEnv (Dose.id d) (Dose.status d) rescheduledState in
          Dose.status <$> doses rescheduledState !! 0 = Some TAKEN
          /\ Dose.status <$> doses state' !! 0 = Some PENDING
          /\ doses state' <> doses rescheduledState
          /\ length (history rescheduledState) = 1
          /\ length (history state') = 2.
Proof.
  split; [apply rescheduledState_reachable |].
  eexists. split; [vm_compute; reflexivity |].
  vm_compute. repeat split; try reflexivity. discriminate.
Qed.
End SharedIdentifiers.

(** ** The history ledger *)

Section Ledger.
Variable LocalTZA : Z -> bool -> Z.

Lemma take_100_cons_take {A : Type} (x : A) (l : list A) :
  take 100 (x :: take 100 l) = take 100 (x :: l).
Proof.
  change (take 100 (x :: ?k)) with (x :: take 99 k).
  f_equal. rewrite take_take. f_equal.
Qed.

(** One store operation keeps the history equal to the first 100 entries of
    the unbounded log. *)
Lemma step_ledger (state : CareState.t) (log : list HistoryEntry.t) (op : Op) :
  history state = take 100 log ->
  history (step LocalTZA state op) = take 100 (ledgerStep state log op).
Proof.
  intros Hlog. destruct op as [ms|env doseId status| |today now ms|name|name|im];
    try exact Hlog; [| reflexivity].
  unfold step, ledgerStep, transitionEntry, toggleDose.
  destruct (List.find _ _) as [target|]; [| exact Hlog].
  destruct (bool_decide _); [exact Hlog |].
  cbn [history]. rewrite Hlog. apply take_100_cons_take.
Qed.

Lemma run_ledger (ops : list Op) (state : CareState.t) (log : list HistoryEntry.t) :
  history state = take 100 log ->
  history (run LocalTZA ops state) = take 100 (unboundedLedger LocalTZA ops state log).
Proof.
  revert state log. induction ops as [|op ops IH]; intros state log Hlog; simpl.
  - done.
  - apply IH. by apply step_ledger.
Qed.

(** C3: after any sequence of store operations from the initial state, the
    history is the first 100 entries of the newest-first log of all
    status-changing transitions (since the last full reset): it never has
    more than 100 entries, and once more than 100 transitions have been
    logged it has exactly 100, the most recent ones, newest first. *)
Theorem history_bounded (ops : list Op) :
  let state := run LocalTZA ops initialState in
  let log := unboundedLedger LocalTZA ops initialState [] in
  length (history state) <= 100
  /\ history state = take 100 log
  /\ length (history state) = min 100 (length log).
Proof.
  simpl.
  assert (history (run LocalTZA ops initialState)
          = take 100 (unboundedLedger LocalTZA ops initialState [])) as ->
    by (by apply run_ledger).
  rewrite length_take. repeat split; lia.
Qed.
End Ledger.

(** 101 transitions of one dose: the history holds the entries of the calls
    100 down to 1, and the entry of call 0 is gone. *)
Example history_after_101_transitions :
  let state :=
    run utcTZA (GenerateSchedule sampleToday sampleToday [sampleMedicine]
                  :: alternatingToggles 101) initialState in
  length (history state) = 100
  /\ HistoryEntry.id <$> head (history state) = Some "hist-1774657800100-k3j9x0q1z"
  /\ HistoryEntry.id <$> last (history state) = Some "hist-1774657800001-k3j9x0q1z"
  /\ length (unboundedLedger utcTZA
               (GenerateSchedule sampleToday sampleToday [sampleMedicine]
                  :: alternatingToggles 101) initialState []) = 101.
Proof. vm_compute. done. Qed.

(** ** Remedies *)

Section Remedies.
Variable LocalTZA : Z -> bool -> Z.

Lemma step_remedies_NoDup (state : CareState.t) (op : Op) :
  NoDup (remedies state) -> NoDup (remedies (step LocalTZA state op)).
Proof.
  intros Hnd. destruct op as [ms|env doseId status| |today now ms|name|name|im];
    simpl; try done.
  - unfold toggleDose. destruct (List.find _ _); [| done].
    by destruct (bool_decide _).
  - constructor.
  - destruct (bool_decide_reflect (name ∈ remedies state)); [done |].
    apply NoDup_app. repeat split; [done | | apply NoDup_singleton].
    intros r Hr Hr'. apply list_elem_of_singleton in Hr' as ->. done.
  - by apply NoDup_filter.
Qed.

Lemma run_remedies_NoDup (ops : list Op) (state : CareState.t) :
  NoDup (remedies state) -> NoDup (remedies (run LocalTZA ops state)).
Proof.
  revert state. induction ops as [|op ops IH]; intros state Hnd; simpl; [done |].
  by apply IH, step_remedies_NoDup.
Qed.

Lemma filter_eq_absent (name : string) (l : list string) :
  name ∉ l -> filter (λ r, r = name) l = [].
Proof.
  intros Hl. induction l as [|r l IH]; [done |].
  rewrite filter_cons. destruct (decide (r = name)) as [->|].
  - exfalso. apply Hl. left.
  - apply IH. intros H. apply Hl. by right.
Qed.

Lemma filter_ne_absent (name : string) (l : list string) :
  name ∉ l -> filter (λ r, r <> name) l = l.
Proof.
  intros Hl. induction l as [|r l IH]; [done |].
  rewrite filter_cons. destruct (decide (r <> name)) as [|Heq].
  - f_equal. apply IH. intros H. apply Hl. by right.
  - exfalso. apply Hl. apply dec_stable in Heq as ->. left.
Qed.

Lemma addRemedy_present (name : string) (state : CareState.t) :
  name ∈ remedies state -> addRemedy name state = state.
Proof.
  intros Hin. unfold addRemedy.
  rewrite bool_decide_eq_true_2 by done. by destruct state.
Qed.

Lemma filter_eq_once (name : string) (pre post : list string) :
  NoDup (pre ++ name :: post) ->
  length (filter (λ r, r = name) (pre ++ name :: post)) = 1.
Proof.
  intros Hnd. apply NoDup_app in Hnd as (_ & Hpre & Hpost).
  apply NoDup_cons in Hpost as [Hpost _].
  rewrite filter_app, filter_cons, decide_True by done.
  rewrite !filter_eq_absent; [done | done |].
  intros Hin. apply (Hpre name Hin). left.
Qed.

Lemma addRemedy_twice_once (name : string) (state : CareState.t) :
  NoDup (remedies state) ->
  length (filter (λ r, r = name)
            (remedies (addRemedy name (addRemedy name state)))) = 1.
Proof.
  intros Hnd.
  assert (name ∈ remedies (addRemedy name state)) as Hin.
  { unfold addRemedy. cbn [remedies].
    destruct (bool_decide_reflect (name ∈ remedies state)); [done |].
    apply elem_of_app. right. left. }
  rewrite (addRemedy_present name (addRemedy name state)) by done.
  assert (NoDup (remedies (addRemedy name state))) as Hnd'
    by exact (step_remedies_NoDup state (AddRemedy name) Hnd).
  apply list_elem_of_split in Hin as (pre & post & Heq).
  rewrite Heq in Hnd' |- *. by apply filter_eq_once.
Qed.

Lemma removeRemedy_split (name : string) (state : CareState.t)
    (pre post : list string) :
  NoDup (remedies state) ->
  remedies state = pre ++ name :: post ->
  remedies (removeRemedy name state) = pre ++ post.
Proof.
  intros Hnd Heq. unfold removeRemedy. cbn [remedies].
  rewrite Heq in Hnd |- *.
  apply NoDup_app in Hnd as (_ & Hpre & Hpost).
  apply NoDup_cons in Hpost as [Hpost _].
  rewrite filter_app, filter_cons, decide_False by (intros H; by apply H).
  rewrite !filter_ne_absent; [done | done |].
  intros Hin. apply (Hpre name Hin). left.
Qed.

(** C9: in every state the store can reach the remedy names are pairwise
    distinct; [addRemedy] of a name already present returns the state as it
    is, so a name added twice is there once; [removeRemedy name] leaves no
    entry equal to [name], keeps every other entry, and keeps their order:
    where the remedies are [pre ++ name :: post] they become
    [pre ++ post]. *)
Theorem remedies_unique (ops : list Op) :
  let state := run LocalTZA ops initialState in
  NoDup (remedies state)
  /\ (forall name, name ∈ remedies state -> addRemedy name state = state)
  /\ (forall name,
        length (filter (λ r, r = name)
                  (remedies (addRemedy name (addRemedy name state)))) = 1)
  /\ (forall name,
        (name ∉ remedies (removeRemedy name state))
        /\ (forall r, r <> name ->
              (r ∈ remedies (removeRemedy name state) <-> r ∈ remedies state))
        /\ remedies (removeRemedy name state) `sublist_of` remedies state
        /\ (forall pre post, remedies state = pre ++ name :: post ->
              remedies (removeRemedy name state) = pre ++ post)).
Proof.
  intros state.
  assert (NoDup (remedies state)) as Hnd
    by (apply run_remedies_NoDup; constructor).
  clearbody state.
  split; [done |]. split; [| split].
  - intros name. apply addRemedy_present.
  - intros name. by apply addRemedy_twice_once.
  - intros name. unfold removeRemedy. cbn [remedies]. repeat split.
    + intros Hin. by apply list_elem_of_filter in Hin as [? _].
    + intros Hin. by apply list_elem_of_filter in Hin as [_ ?].
    + intros Hin. by apply list_elem_of_filter.
    + apply sublist_filter.
    + intros pre post Heq. by apply (removeRemedy_split name state).
Qed.
End Remedies.

(** The same name added twice to the empty store, then removed. *)
Example remedies_add_twice :
  remedies (run utcTZA [AddRemedy "Ibuprofen"; AddRemedy "Vitamin C";
                        AddRemedy "Ibuprofen"] initialState)
    = ["Ibuprofen"; "Vitamin C"]
  /\ remedies (run utcTZA [AddRemedy "Ibuprofen"; AddRemedy "Vitamin C";
                           AddRemedy "ibuprofen"; RemoveRemedy "Ibuprofen"]
                 initialState)
    = ["Vitamin C"; "ibuprofen"].
Proof. vm_compute. done. Qed.

(** ** Interaction annotations *)

Section Interactions.

(** C7, as the code has it: [updateInteractions] overwrites the annotation of
    every medicine with what the map holds under the medicine's id: the entry
    itself when the id is a key of the map, and absent when the id is not a
    key and is not the name of a property inherited from [Object.prototype];
    every other field of the medicine, the order of the medicines and the
    rest of the state are kept; with the empty map no medicine whose id is
    not such a name keeps an annotation. *)
Theorem updateInteractions_overwrites (interactions : gmap string Interaction.t)
    (state : CareState.t) :
  let state' := updateInteractions interactions state in
  length (medicines state') = length (medicines state)
  /\ (forall (k : nat) med, medicines state !! k = Some med ->
        exists med', medicines state' !! k = Some med'
          /\ (forall interaction,
                interactions !! Medicine.id med = Some interaction ->
                Medicine.potentialInteractions med'
                = Some (ownInteraction interaction))
          /\ (interactions !! Medicine.id med = None ->
              Medicine.id med ∉ ObjectPrototype_keys ->
              Medicine.potentialInteractions med' = None)
          /\ Medicine.id med' = Medicine.id med
          /\ Medicine.name med' = Medicine.name med
          /\ Medicine.dosage med' = Medicine.dosage med
          /\ Medicine.frequency med' = Medicine.frequency med
          /\ Medicine.timings med' = Medicine.timings med
          /\ Medicine.durationDays med' = Medicine.durationDays med)
  /\ doses state' = doses state
  /\ history state' = history state
  /\ remedies state' = remedies state
  /\ lastExtractionDate state' = lastExtractionDate state
  /\ (forall med', med' ∈ medicines (updateInteractions ∅ state) ->
        Medicine.id med' ∉ ObjectPrototype_keys ->
        Medicine.potentialInteractions med' = None).
Proof.
  cbn [updateInteractions medicines doses history remedies lastExtractionDate].
  repeat split.
  - by rewrite length_map.
  - intros k med Hk.
    change (map ?f ?l) with (f <$> l). rewrite list_lookup_fmap, Hk.
    cbn [fmap option_fmap option_map].
    eexists. split; [reflexivity |].
    cbn [Medicine.id Medicine.name Medicine.dosage Medicine.frequency
         Medicine.timings Medicine.durationDays Medicine.potentialInteractions].
    unfold Record_get. repeat split.
    + by intros interaction ->.
    + intros -> Hkey. by rewrite bool_decide_eq_false_2.
  - intros med' Hin Hkey. change (map ?f ?l) with (f <$> l) in Hin.
    apply list_elem_of_fmap in Hin as (med & -> & _).
    cbn [Medicine.id Medicine.potentialInteractions] in *.
    unfold Record_get. by rewrite lookup_empty, bool_decide_eq_false_2.
Qed.

(** C7 as stated fails: a store operation puts a medicine with the id
    [constructor] into the store; [updateInteractions] with the empty map,
    of which that id is no key, does not clear its annotation but stores the
    property all objects inherit under that name. *)
Lemma updateInteractions_inherited_key :
  let state :=
    run utcTZA [GenerateSchedule sampleToday sampleToday [prototypeKeyMedicine]]
        initialState in
  Reachable utcTZA state
  /\ exists med',
       medicines (updateInteractions ∅ state) = [med']
       /\ Medicine.id med' = "constructor"
       /\ (∅ : gmap string Interaction.t) !! Medicine.id med' = None
       /\ Medicine.potentialInteractions med'
            = Some (inheritedProperty "constructor")
       /\ Medicine.potentialInteractions med' <> None.
Proof.
  intros state. split; [by eexists |].
  eexists. split; [vm_compute; reflexivity |].
  vm_compute. repeat split. discriminate.
Qed.
End Interactions.

(** * Further properties *)

(** ** What every run of the store keeps *)

Section StoreInvariants.
Variable LocalTZA : Z -> bool -> Z.

Ltac store_simpl :=
  cbn [step generateSchedule addMedicines addRemedy removeRemedy
       updateInteractions clearAll
       medicines doses history remedies lastExtractionDate] in *.

Lemma run_invariant (P : CareState.t -> Prop) :
  (forall state op, P state -> P (step LocalTZA state op)) ->
  forall ops state, P state -> P (run LocalTZA ops state).
Proof.
  intros Hstep ops. induction ops as [|op ops IH]; intros state HP; simpl.
  - done.
  - by apply IH, Hstep.
Qed.

Lemma find_dose_elem (doseId : string) (l : list Dose.t) (target : Dose.t) :
  List.find (λ d, bool_decide (Dose.id d = doseId)) l = Some target ->
  target ∈ l /\ Dose.id target = doseId.
Proof.
  intros Hfind. apply find_some in Hfind as [Hin Hid].
  split; [by apply list_elem_of_In | by apply bool_decide_eq_true_1 in Hid].
Qed.

Lemma sameSlot_refl (d : Dose.t) : sameSlot d d.
Proof. by repeat split. Qed.

Lemma sameSlot_toggled (doseId : string) (status : DoseStatus) (d : Dose.t) :
  sameSlot d (if bool_decide (Dose.id d = doseId) then withStatus d status else d).
Proof. destruct (bool_decide _); by repeat split. Qed.

(** The doses after [toggleDose] are the doses before, one for one, each
    changed at most in its status. *)
Lemma toggleDose_sameSlot (env : ToggleEnv) (doseId : string) (status : DoseStatus)
    (state : CareState.t) :
  Forall2 sameSlot (doses state) (doses (toggleDose env doseId status state)).
Proof.
  unfold toggleDose.
  destruct (List.find _ _) as [target|]; [| apply Forall_Forall2_diag, Forall_forall;
    intros; apply sameSlot_refl].
  destruct (bool_decide _); [apply Forall_Forall2_diag, Forall_forall;
    intros; apply sameSlot_refl |].
  cbn [doses]. change (map ?f ?l) with (f <$> l).
  apply Forall2_fmap_r, Forall_Forall2_diag, Forall_forall.
  intros d _. apply sameSlot_toggled.
Qed.

(** A property of doses that does not look at the status survives
    [toggleDose]. *)
Lemma toggleDose_Forall (P : Dose.t -> Prop) (env : ToggleEnv) (doseId : string)
    (status : DoseStatus) (state : CareState.t) :
  (forall d d', sameSlot d d' -> P d -> P d') ->
  Forall P (doses state) -> Forall P (doses (toggleDose env doseId status state)).
Proof.
  intros HP Hall. pose proof (toggleDose_sameSlot env doseId status state) as H2.
  induction H2 as [|d d' l l' Hdd' _ IH]; [constructor |].
  apply Forall_cons in Hall as [Hd Hl].
  constructor; [by apply (HP d) | by apply IH].
Qed.

(** Every dose that is in the store before [toggleDose] has its counterpart
    after. *)
Lemma toggleDose_elem (env : ToggleEnv) (doseId : string) (status : DoseStatus)
    (state : CareState.t) (d : Dose.t) :
  d ∈ doses state ->
  exists d', d' ∈ doses (toggleDose env doseId status state) /\ sameSlot d d'.
Proof.
  intros Hd. pose proof (toggleDose_sameSlot env doseId status state) as H2.
  apply list_elem_of_lookup in Hd as [k Hk].
  destruct (Forall2_lookup_l _ _ _ _ _ H2 Hk) as (d' & Hk' & Hdd').
  exists d'. split; [| done]. apply list_elem_of_lookup. by exists k.
Qed.

(** X1: in every state the store reaches, the identifier of each dose is the
    join of that dose's own medicine id, date and slot. *)
Theorem doses_id_of_fields (ops : list Op) :
  Forall (λ d, Dose.id d = doseId (Dose.medicineId d) (Dose.date d) (Dose.timeSlot d))
         (doses (run LocalTZA ops initialState)).
Proof.
  apply (run_invariant
           (λ state, Forall (λ d, Dose.id d
                        = doseId (Dose.medicineId d) (Dose.date d) (Dose.timeSlot d))
                            (doses state))); [| constructor].
  intros state [ms|env id status| |today now ms|name|name|im] Hall;
    [exact Hall | | constructor | | exact Hall | exact Hall | exact Hall ];
    store_simpl.
  - apply toggleDose_Forall; [| done].
    intros d d' (Hid & Hm & _ & Hd & Hs) Hdd. by rewrite Hid, Hm, Hd, Hs.
  - apply Forall_app. split; [done |].
    apply Forall_forall. intros x Hx.
    apply elem_of_newDoses in Hx as (m & i & s & _ & _ & _ & ->).
    unfold scheduledDose.
    cbn [Dose.id Dose.medicineId Dose.date Dose.timeSlot]. reflexivity.
Qed.

(** X2: in every state the store reaches, each dose belongs to a medicine
    that is still in the store: one with the dose's medicine id and medicine
    name that declares the dose's slot. *)
Theorem doses_have_medicine (ops : list Op) :
  Forall (λ d, exists med, med ∈ medicines (run LocalTZA ops initialState)
                 /\ Medicine.id med = Dose.medicineId d
                 /\ Medicine.name med = Dose.medicineName d
                 /\ Dose.timeSlot d ∈ Medicine.timings med)
         (doses (run LocalTZA ops initialState)).
Proof.
  apply (run_invariant
           (λ state, Forall (λ d, exists med, med ∈ medicines state
                               /\ Medicine.id med = Dose.medicineId d
                               /\ Medicine.name med = Dose.medicineName d
                               /\ Dose.timeSlot d ∈ Medicine.timings med)
                            (doses state))); [| constructor].
  intros state [ms|env id status| |today now ms|name|name|im] Hall;
    try exact Hall.
  - store_simpl. eapply Forall_impl; [exact Hall |].
    intros d (med & Hin & H). exists med. split; [| done].
    apply elem_of_app. by left.
  - assert (medicines (toggleDose env id status state) = medicines state) as Hmeds.
    { unfold toggleDose. destruct (List.find _ _); [| done].
      by destruct (bool_decide _). }
    store_simpl. rewrite Hmeds. apply toggleDose_Forall; [| done].
    intros d d' (_ & Hm & Hn & _ & Hs) (med & Hin & Hmid & Hname & Hslot).
    exists med. by rewrite Hm, Hn, Hs.
  - constructor.
  - store_simpl. apply Forall_app. split.
    + eapply Forall_impl; [exact Hall |].
      intros d (med & Hin & H). exists med. split; [| done].
      apply elem_of_app. by left.
    + apply Forall_forall. intros x Hx.
      apply elem_of_newDoses in Hx as (m & i & s & Hm & _ & Hs & ->).
      exists m. unfold scheduledDose.
      cbn [Dose.medicineId Dose.medicineName Dose.timeSlot].
      split; [apply elem_of_app; by right |]. by repeat split.
  - store_simpl. eapply Forall_impl; [exact Hall |].
    intros d (med & Hin & Hmid & Hname & Hslot).
    eexists. split.
    + change (map ?f ?l) with (f <$> l). apply list_elem_of_fmap.
      exists med. split; [reflexivity | done].
    + done.
Qed.

(** X3: in every state the store reaches, each history entry describes a dose
    that is still in the store: some dose has the entry's medicine name,
    slot and date. *)
Theorem history_has_dose (ops : list Op) :
  Forall (λ entry, exists d, d ∈ doses (run LocalTZA ops initialState)
                     /\ Dose.medicineName d = HistoryEntry.medicineName entry
                     /\ Dose.timeSlot d = HistoryEntry.timeSlot entry
                     /\ Dose.date d = HistoryEntry.date entry)
         (history (run LocalTZA ops initialState)).
Proof.
  apply (run_invariant
           (λ state, Forall (λ entry, exists d, d ∈ doses state
                               /\ Dose.medicineName d = HistoryEntry.medicineName entry
                               /\ Dose.timeSlot d = HistoryEntry.timeSlot entry
                               /\ Dose.date d = HistoryEntry.date entry)
                            (history state))); [| constructor].
  intros state [ms|env id status| |today now ms|name|name|im] Hall;
    try exact Hall.
  - assert (Forall (λ entry, exists d,
                      d ∈ doses (toggleDose env id status state)
                      /\ Dose.medicineName d = HistoryEntry.medicineName entry
                      /\ Dose.timeSlot d = HistoryEntry.timeSlot entry
                      /\ Dose.date d = HistoryEntry.date entry)
                   (history state)) as Hold.
    { eapply Forall_impl; [exact Hall |].
      intros entry (d & Hin & Hn & Hs & Hd).
      destruct (toggleDose_elem env id status state d Hin)
        as (d' & Hin' & _ & _ & Hn' & Hd' & Hs').
      exists d'. by rewrite Hn', Hd', Hs'. }
    store_simpl. revert Hold. generalize (toggleDose_elem env id status state).
    unfold toggleDose.
    destruct (List.find _ _) as [target|] eqn:Hfind; [| done].
    destruct (bool_decide _); [done |]. cbn [doses history].
    intros Helem Hold. apply Forall_take. constructor; [| done].
    apply find_dose_elem in Hfind as [Hin _].
    destruct (Helem target Hin) as (d' & Hin' & _ & _ & Hn' & Hd' & Hs').
    exists d'. by rewrite Hn', Hd', Hs'.
  - constructor.
  - store_simpl. eapply Forall_impl; [exact Hall |].
    intros entry (d & Hin & H). exists d. split; [| done].
    apply elem_of_app. by left.
Qed.

(** X4: in every state the store reaches, a store that holds doses has a
    last-extraction date. *)
Theorem doses_imply_extraction_date (ops : list Op) :
  doses (run LocalTZA ops initialState) = []
  \/ is_Some (lastExtractionDate (run LocalTZA ops initialState)).
Proof.
  apply (run_invariant
           (λ state, doses state = [] \/ is_Some (lastExtractionDate state)));
    [| by left].
  intros state [ms|env id status| |today now ms|name|name|im] Hinv;
    try exact Hinv.
  - store_simpl. unfold toggleDose. destruct (List.find _ _); [| done].
    destruct (bool_decide _); [done |]. cbn [doses lastExtractionDate].
    destruct Hinv as [-> | ?]; [by left | by right].
  - by left.
  - right. by eexists.
Qed.

(** X5: no operation other than [clearAll] removes or reorders a medicine or
    a dose: the medicine ids and the dose ids before the operation are an
    initial segment of those after it. *)
Theorem step_keeps_entries (state : CareState.t) (op : Op) :
  op <> ClearAll ->
  (Medicine.id <$> medicines state)
    `prefix_of` (Medicine.id <$> medicines (step LocalTZA state op))
  /\ (Dose.id <$> doses state)
    `prefix_of` (Dose.id <$> doses (step LocalTZA state op)).
Proof.
  intros Hop.
  destruct op as [ms|env id status| |today now ms|name|name|im]; try done; store_simpl.
  - split; [| done]. rewrite fmap_app. by apply prefix_app_r.
  - split.
    + unfold toggleDose. destruct (List.find _ _); [| done].
      by destruct (bool_decide _).
    + assert (Dose.id <$> doses (toggleDose env id status state)
              = Dose.id <$> doses state) as ->; [| done].
      pose proof (toggleDose_sameSlot env id status state) as H2.
      induction H2 as [|d d' l l' (Hid & _) _ IH]; [done |].
      rewrite !fmap_cons. by rewrite Hid, IH.
  - split; rewrite fmap_app; by apply prefix_app_r.
  - split; [| done].
    change (map ?f ?l) with (f <$> l). rewrite <- list_fmap_compose.
    assert (Medicine.id <$> medicines state
            = (Medicine.id ∘ (λ med,
                 {| Medicine.id := Medicine.id med;
                    Medicine.name := Medicine.name med;
                    Medicine.dosage := Medicine.dosage med;
                    Medicine.frequency := Medicine.frequency med;
                    Medicine.timings := Medicine.timings med;
                    Medicine.durationDays := Medicine.durationDays med;
                    Medicine.potentialInteractions :=
                      Record_get im (Medicine.id med) |}))
                <$> medicines state) as <-; done.
Qed.

End StoreInvariants.

Lemma step_keeps_entries_witness :
  (Medicine.id <$> medicines rescheduledState)
    `prefix_of`
      (Medicine.id <$> medicines
         (step utcTZA rescheduledState
            (GenerateSchedule sampleToday sampleToday [longIdMedicine])))
  /\ (Dose.id <$> doses rescheduledState)
    `prefix_of`
      (Dose.id <$> doses
         (step utcTZA rescheduledState
            (GenerateSchedule sampleToday sampleToday [longIdMedicine]))).
Proof.
  apply (step_keeps_entries utcTZA rescheduledState
           (GenerateSchedule sampleToday sampleToday [longIdMedicine])).
  discriminate.
Defined.


(** ** How the store operations compose *)

Section StoreComposition.
Implicit Types (env : ToggleEnv) (state : CareState.t).

Lemma find_toggled (doseId : string) (status : DoseStatus) (l : list Dose.t) :
  List.find (λ d, bool_decide (Dose.id d = doseId))
    (map (λ d, if bool_decide (Dose.id d = doseId) then withStatus d status else d) l)
  = (λ d, withStatus d status)
      <$> List.find (λ d, bool_decide (Dose.id d = doseId)) l.
Proof.
  induction l as [|d l IH]; [done |]. cbn [map List.find].
  destruct (bool_decide_reflect (Dose.id d = doseId)) as [Hid|Hid].
  - cbn [withStatus Dose.id]. by rewrite bool_decide_eq_true_2.
  - by rewrite bool_decide_eq_false_2.
Qed.

(** X6: asking twice for the same status is asking once.  The second of two
    [toggleDose] calls with the same identifier and status returns the state
    of the first as it is (no change of a dose, no second history entry),
    whatever the state and whether or not identifiers repeat. *)
Theorem toggleDose_idempotent env env' (doseId : string) (status : DoseStatus) state :
  toggleDose env' doseId status (toggleDose env doseId status state)
  = toggleDose env doseId status state.
Proof.
  unfold toggleDose at 2 3.
  destruct (List.find _ (doses state)) as [target|] eqn:Hfind.
  - destruct (bool_decide_reflect (Dose.status target = status)) as [Hs|Hs].
    + unfold toggleDose. by rewrite Hfind, bool_decide_eq_true_2.
    + unfold toggleDose. cbn [doses]. rewrite find_toggled, Hfind.
      cbn [fmap option_fmap option_map withStatus Dose.status].
      by rewrite bool_decide_eq_true_2.
  - unfold toggleDose. by rewrite Hfind.
Qed.

Lemma withStatus_own (d : Dose.t) : withStatus d (Dose.status d) = d.
Proof. by destruct d. Qed.

(** X7: a status change and the change back restore the doses.  Where
    exactly one dose carries [doseId], with status [s0], [toggleDose] to
    another status [s1] and then back to [s0] gives the doses of the start,
    and the history holds two more entries in front, the newer with status
    [s0], the older with status [s1] (cut to 100). *)
Theorem toggleDose_there_and_back env env' (doseId : string) (s0 s1 : DoseStatus)
    state (pre post : list Dose.t) (target : Dose.t) :
  doses state = pre ++ target :: post ->
  (forall d, d ∈ pre ++ post -> Dose.id d <> doseId) ->
  Dose.id target = doseId ->
  Dose.status target = s0 ->
  s1 <> s0 ->
  let state' := toggleDose env' doseId s0 (toggleDose env doseId s1 state) in
  doses state' = doses state
  /\ history state'
       = take 100 (historyEntry env' target s0 :: historyEntry env target s1
                     :: history state)
  /\ medicines state' = medicines state
  /\ remedies state' = remedies state
  /\ lastExtractionDate state' = lastExtractionDate state.
Proof.
  intros Hdoses Hother Hid Hs0 Hne.
  assert (forall d, d ∈ pre -> Dose.id d <> doseId) as Hpre
    by (intros d Hd; apply Hother, elem_of_app; by left).
  assert (forall d, d ∈ post -> Dose.id d <> doseId) as Hpost
    by (intros d Hd; apply Hother, elem_of_app; by right).
  assert (toggleDose env doseId s1 state
          = {| medicines := medicines state;
               doses := pre ++ withStatus target s1 :: post;
               history := take 100 (historyEntry env target s1 :: history state);
               remedies := remedies state;
               lastExtractionDate := lastExtractionDate state |}) as ->.
  { unfold toggleDose. rewrite Hdoses, find_first by done.
    rewrite bool_decide_eq_false_2 by congruence.
    rewrite map_app, map_status_absent by done. cbn [map].
    rewrite bool_decide_eq_true_2, map_status_absent by done. done. }
  intros state'. subst state'. unfold toggleDose. cbn [doses history medicines
    remedies lastExtractionDate].
  rewrite find_first by done.
  cbn [withStatus Dose.status]. rewrite bool_decide_eq_false_2 by done.
  cbn [doses history medicines remedies lastExtractionDate].
  rewrite map_app, map_status_absent by done. cbn [map withStatus Dose.id].
  rewrite bool_decide_eq_true_2, map_status_absent by done.
  repeat split.
  - rewrite Hdoses. do 2 f_equal. rewrite <- Hs0. by destruct target.
  - rewrite take_100_cons_take. by destruct target.
Qed.

Lemma toggleDose_there_and_back_witness :
  let d := scheduledDose sampleMedicine "2026-03-28" "Morning" in
  let state := {| medicines := [sampleMedicine]; doses := [d]; history := [];
                  remedies := []; lastExtractionDate := None |} in
  let state' := toggleDose sampleEnv (Dose.id d) PENDING
                  (toggleDose sampleEnv (Dose.id d) MISSED state) in
  doses state' = doses state
  /\ history state'
       = take 100 (historyEntry sampleEnv d PENDING :: historyEntry sampleEnv d MISSED
                     :: history state)
  /\ medicines state' = medicines state
  /\ remedies state' = remedies state
  /\ lastExtractionDate state' = lastExtractionDate state.
Proof.
  intros d state.
  apply (toggleDose_there_and_back sampleEnv sampleEnv (Dose.id d) PENDING MISSED
           state [] [] d).
  - reflexivity.
  - intros d' Hd'. inversion Hd'.
  - reflexivity.
  - reflexivity.
  - discriminate.
Defined.

(** X8: adding a remedy that is not there and removing it again gives back
    the state, and removing a remedy that is not there changes nothing. *)
Theorem remedy_add_remove (name : string) state :
  name ∉ remedies state ->
  removeRemedy name (addRemedy name state) = state
  /\ removeRemedy name state = state.
Proof.
  intros Hnin. unfold removeRemedy, addRemedy. cbn [remedies medicines doses
    history lastExtractionDate].
  rewrite bool_decide_eq_false_2 by done.
  rewrite filter_app, !filter_ne_absent by done.
  rewrite filter_cons, decide_False by (intros H; by apply H).
  rewrite filter_nil, app_nil_r. by destruct state.
Qed.

Lemma remedy_add_remove_witness :
  let state := run utcTZA [AddRemedy "Vitamin C"] initialState in
  removeRemedy "Ibuprofen" (addRemedy "Ibuprofen" state) = state
  /\ removeRemedy "Ibuprofen" state = state.
Proof.
  intros state. apply (remedy_add_remove "Ibuprofen" state).
  intros Hin. vm_compute in Hin.
  apply list_elem_of_singleton in Hin. discriminate Hin.
Defined.

(** X9: the last interaction check wins.  [updateInteractions] after an
    earlier [updateInteractions] gives the state the later call alone gives;
    nothing of the earlier map is left. *)
Theorem updateInteractions_last_wins
    (first second : gmap string Interaction.t) state :
  updateInteractions second (updateInteractions first state)
  = updateInteractions second state.
Proof.
  unfold updateInteractions. cbn [medicines doses history remedies
    lastExtractionDate].
  f_equal. rewrite map_map. apply map_ext. intros med. reflexivity.
Qed.

(** X10: scheduling a list of medicines in one call, or its two halves in two
    calls that read the same date, gives the same medicines and doses in the
    same order. *)
Theorem generateSchedule_split (LocalTZA : Z -> bool -> Z) (today now now' : Z)
    (first second : list Medicine.t) state :
  generateSchedule LocalTZA today now' second
    (generateSchedule LocalTZA today now first state)
  = generateSchedule LocalTZA today now' (first ++ second) state.
Proof.
  unfold generateSchedule. cbn [medicines doses history remedies
    lastExtractionDate].
  rewrite !newDoses_grouped, flat_map_app, !app_assoc. reflexivity.
Qed.
End StoreComposition.

(** ** Calendar dates as text *)

Section DateText.
Import JSDate.
Local Open Scope Z_scope.

Lemma digitChar_inj (a b : Z) :
  0 <= a < 10 -> 0 <= b < 10 -> digitChar a = digitChar b -> a = b.
Proof.
  intros Ha Hb.
  assert (a = 0 \/ a = 1 \/ a = 2 \/ a = 3 \/ a = 4 \/ a = 5 \/ a = 6 \/ a = 7
          \/ a = 8 \/ a = 9) as Ha' by lia.
  assert (b = 0 \/ b = 1 \/ b = 2 \/ b = 3 \/ b = 4 \/ b = 5 \/ b = 6 \/ b = 7
          \/ b = 8 \/ b = 9) as Hb' by lia.
  clear Ha Hb.
  repeat (destruct Ha' as [-> | Ha']); try subst a;
    repeat (destruct Hb' as [-> | Hb']); try subst b;
    intros H; first [reflexivity | discriminate H].
Qed.

Lemma length_digits (w : nat) (n : Z) : String.length (digits w n) = w.
Proof.
  revert n. induction w as [|w IH]; intros n; [done |].
  cbn [digits]. rewrite length_append, IH. simpl. lia.
Qed.

Lemma append_inj_length (a1 a2 r1 r2 : string) :
  String.length a1 = String.length a2 ->
  a1 +:+ r1 = a2 +:+ r2 -> a1 = a2 /\ r1 = r2.
Proof.
  revert a2. induction a1 as [|c a1 IH]; intros [|c' a2] Hlen Heq;
    try discriminate Hlen.
  - done.
  - rewrite !append_String in Heq. injection Heq as -> Heq.
    injection Hlen as Hlen. by destruct (IH a2 Hlen Heq) as [-> ->].
Qed.

Lemma append_cancel_l (a x y : string) : a +:+ x = a +:+ y -> x = y.
Proof. intros H. by apply append_inj_length in H as [_ ?]. Qed.

(** [w] digits tell apart the numbers below [10^w]. *)
Lemma digits_inj (w : nat) (a b : Z) :
  0 <= a < 10 ^ Z.of_nat w -> 0 <= b < 10 ^ Z.of_nat w ->
  digits w a = digits w b -> a = b.
Proof.
  revert a b. induction w as [|w IH]; intros a b Ha Hb Heq.
  - change (10 ^ Z.of_nat 0) with 1 in *. lia.
  - rewrite Nat2Z.inj_succ, Z.pow_succ_r in Ha, Hb by lia.
    cbn [digits] in Heq.
    apply append_inj_length in Heq as [Hhi Hlo];
      [| by rewrite !length_digits].
    injection Hlo as Hlo.
    apply digitChar_inj in Hlo; [| by apply Z.mod_pos_bound..].
    apply IH in Hhi.
    + rewrite (Z.div_mod a 10), (Z.div_mod b 10) by lia. by rewrite Hhi, Hlo.
    + split; [by apply Z.div_pos; lia | apply Z.div_lt_upper_bound; lia].
    + split; [by apply Z.div_pos; lia | apply Z.div_lt_upper_bound; lia].
Qed.

Lemma yearString_cases (y : Z) :
  (0 <= y <= 9999 /\ yearString y = digits 4 y)
  \/ (9999 < y /\ yearString y = String "+" (digits 6 y))
  \/ (y < 0 /\ yearString y = String "-" (digits 6 (- y))).
Proof.
  unfold yearString.
  destruct (Z.leb_spec 0 y), (Z.leb_spec y 9999); cbn [andb].
  - left. split; [lia | reflexivity].
  - right. left. split; [lia | reflexivity].
  - right. right. split; [lia | reflexivity].
  - right. right. split; [lia | reflexivity].
Qed.

Lemma yearString_length (y : Z) :
  String.length (yearString y)
  = if (0 <=? y) && (y <=? 9999) then 4%nat else 7%nat.
Proof.
  destruct (yearString_cases y) as [[R E]|[[R E]|[R E]]]; rewrite E;
    cbn [String.length]; rewrite length_digits.
  - by rewrite !(proj2 (Z.leb_le _ _)) by lia.
  - rewrite (proj2 (Z.leb_gt y 9999)) by lia. by rewrite andb_false_r.
  - by rewrite (proj2 (Z.leb_gt 0 y)) by lia.
Qed.

Lemma yearString_inj (y1 y2 : Z) :
  -999999 <= y1 <= 999999 -> -999999 <= y2 <= 999999 ->
  yearString y1 = yearString y2 -> y1 = y2.
Proof.
  intros H1 H2 Heq.
  assert (String.length (yearString y1) = String.length (yearString y2)) as Hlen
    by (by rewrite Heq).
  destruct (yearString_cases y1) as [[R1 E1]|[[R1 E1]|[R1 E1]]],
           (yearString_cases y2) as [[R2 E2]|[[R2 E2]|[R2 E2]]];
    rewrite E1, E2 in Heq, Hlen; cbn [String.length] in Hlen;
    rewrite !length_digits in Hlen; try discriminate Hlen;
    try discriminate Heq.
  - apply digits_inj in Heq; [done | change (10 ^ Z.of_nat 4) with 10000; lia..].
  - assert (digits 6 y1 = digits 6 y2) as Heq' by congruence.
    apply digits_inj in Heq'; [done | change (10 ^ Z.of_nat 6) with 1000000; lia..].
  - assert (digits 6 (- y1) = digits 6 (- y2)) as Heq' by congruence.
    apply digits_inj in Heq'; [lia | change (10 ^ Z.of_nat 6) with 1000000; lia..].
Qed.

(** The years of the days a [Date] can hold, and of the nine days after. *)
Lemma YearFromDay_bounds (d : Z) :
  -100000000 <= d <= 100000009 -> -999999 <= YearFromDay d <= 999999.
Proof.
  intros Hd. pose proof (YearFromDay_spec d) as Hy.
  set (y := YearFromDay d) in *. clearbody y.
  unfold DayFromYear in Hy.
  split.
  - destruct (Z.le_gt_cases (-999999) y) as [|Hlt]; [done | exfalso].
    revert Hy. Z.div_mod_to_equations. lia.
  - destruct (Z.le_gt_cases y 999999) as [|Hgt]; [done | exfalso].
    revert Hy. Z.div_mod_to_equations. lia.
Qed.

Lemma Day_of_day (d : Z) : Day (d * msPerDay) = d.
Proof. unfold Day. apply Z.div_mul. unfold msPerDay. lia. Qed.

(** The day number is recovered from year, month and day of the month. *)
Lemma Day_from_fields (t : Z) :
  Day t = DayFromYear (YearFromTime t)
          + monthStart (MonthFromTime t) (InLeapYearOf (YearFromTime t))
          + DateFromTime t - 1.
Proof. unfold DateFromTime, DayWithinYear, InLeapYear. lia. Qed.

(** Different days have different date strings. *)
Lemma isoDateOfDay_inj (d1 d2 : Z) :
  -100000000 <= d1 <= 100000009 -> -100000000 <= d2 <= 100000009 ->
  isoDateOfDay d1 = isoDateOfDay d2 -> d1 = d2.
Proof.
  intros H1 H2 Heq. unfold isoDateOfDay in Heq.
  set (t1 := d1 * msPerDay) in *. set (t2 := d2 * msPerDay) in *.
  assert (Day t1 = d1) as HD1 by apply Day_of_day.
  assert (Day t2 = d2) as HD2 by apply Day_of_day.
  pose proof (YearFromDay_bounds (Day t1)) as HY1.
  pose proof (YearFromDay_bounds (Day t2)) as HY2.
  rewrite HD1 in HY1. rewrite HD2 in HY2.
  pose proof (MonthFromTime_range t1). pose proof (MonthFromTime_range t2).
  pose proof (DateFromTime_range t1). pose proof (DateFromTime_range t2).
  pose proof (Day_from_fields t1) as F1. pose proof (Day_from_fields t2) as F2.
  clearbody t1 t2. unfold isoDate, YearFromTime in *.
  rewrite HD1, HD2 in *.
  assert (String.length (yearString (YearFromDay d1))
          = String.length (yearString (YearFromDay d2))) as Hlen.
  { apply (f_equal String.length) in Heq.
    rewrite !length_append, !length_digits in Heq. simpl in Heq. lia. }
  apply append_inj_length in Heq as [Hy Heq]; [| done].
  apply append_cancel_l in Heq.
  apply append_inj_length in Heq as [Hm Heq]; [| by rewrite !length_digits].
  apply append_cancel_l in Heq.
  apply yearString_inj in Hy; [| lia | lia].
  apply digits_inj in Hm; [| change (10 ^ Z.of_nat 2) with 100; lia..].
  apply digits_inj in Heq; [| change (10 ^ Z.of_nat 2) with 100; lia..].
  assert (MonthFromTime t1 = MonthFromTime t2) as Hm' by lia.
  rewrite Hy, Hm', Heq in F1. lia.
Qed.
End DateText.

(** ** Schedules on a host with one offset from UTC *)

Section FixedOffsetSchedule.
Variable LocalTZA : Z -> bool -> Z.
Variable offset : Z.
Hypothesis fixed_offset : forall t isUTC, LocalTZA t isUTC = offset.

Lemma validTime_Day (t : Z) (i : nat) :
  validTime t -> i < 10 ->
  (-100000000 <= JSDate.Day t + Z.of_nat i <= 100000009)%Z.
Proof.
  unfold validTime, JSDate.Day, JSDate.msPerDay. intros Ht Hi.
  assert (-100000000 <= t / 86400000 <= 100000000)%Z.
  { split; [apply Z.div_le_lower_bound | apply Z.div_le_upper_bound]; lia. }
  lia.
Qed.

Lemma dateStr_inj (today : Z) (i j : nat) :
  validTime today -> i < 10 -> j < 10 ->
  dateStr LocalTZA today i = dateStr LocalTZA today j -> i = j.
Proof.
  intros Ht Hi Hj Heq.
  rewrite !(dateStr_fixed_offset LocalTZA offset) in Heq by exact fixed_offset.
  apply isoDateOfDay_inj in Heq; [lia | by apply validTime_Day..].
Qed.

(** X11: on a host whose offset from UTC does not change, the ten date
    strings of a schedule are pairwise different, whatever the time of the
    call. *)
Theorem schedule_dates_distinct (today : Z) :
  validTime today ->
  NoDup (dateStr LocalTZA today <$> seq 0 10).
Proof.
  intros Ht. apply NoDup_fmap_2_strong; [| apply NoDup_seq].
  intros i j Hi Hj. apply elem_of_seq in Hi, Hj.
  apply dateStr_inj; [done | lia | lia].
Qed.

Lemma NoDup_flat_map {A B : Type} (f : A -> list B) (l : list A) :
  NoDup l ->
  (forall x, x ∈ l -> NoDup (f x)) ->
  (forall x1 x2 y, x1 ∈ l -> x2 ∈ l -> y ∈ f x1 -> y ∈ f x2 -> x1 = x2) ->
  NoDup (flat_map f l).
Proof.
  intros Hl Hf Hdisj. induction Hl as [|x l Hx Hl IH]; [constructor |].
  cbn [flat_map]. apply NoDup_app. repeat split.
  - apply Hf. left.
  - intros y Hy Hy'. apply list_elem_of_In, in_flat_map in Hy' as (x' & Hx' & Hy').
    apply list_elem_of_In in Hx', Hy'.
    assert (x = x') as <- by (apply (Hdisj x x' y); [left | by right | done..]).
    done.
  - apply IH.
    + intros x' Hx'. apply Hf. by right.
    + intros x1 x2 y H1 H2. apply Hdisj; by right.
Qed.

Lemma map_flat_map {A B C : Type} (g : B -> C) (f : A -> list B) (l : list A) :
  map g (flat_map f l) = flat_map (λ x, map g (f x)) l.
Proof.
  induction l as [|x l IH]; [done |].
  cbn [flat_map]. by rewrite map_app, IH.
Qed.

Lemma elem_of_flat_map {A B : Type} (f : A -> list B) (l : list A) (y : B) :
  y ∈ flat_map f l <-> exists x, x ∈ l /\ y ∈ f x.
Proof.
  rewrite list_elem_of_In, in_flat_map.
  split; intros (x & Hx & Hy); exists x; by rewrite ?list_elem_of_In in *.
Qed.

Lemma NoDup_fmap_eq {A B : Type} (f : A -> B) (l : list A) (x y : A) :
  NoDup (f <$> l) -> x ∈ l -> y ∈ l -> f x = f y -> x = y.
Proof.
  intros Hnd Hx Hy Heq.
  apply list_elem_of_lookup in Hx as [i Hi]. apply list_elem_of_lookup in Hy as [j Hj].
  assert (i = j) as ->; [| congruence].
  apply (NoDup_lookup (f <$> l) i j (f x)); [done | |];
    rewrite list_lookup_fmap; [by rewrite Hi | by rewrite Hj, Heq].
Qed.

Lemma doseId_slot_inj (medId date slot slot' : string) :
  doseId medId date slot = doseId medId date slot' -> slot = slot'.
Proof.
  unfold doseId. intros H. by do 4 apply append_cancel_l in H.
Qed.

Lemma newDoses_ids_NoDup (today : Z) (newMedicines : list Medicine.t) :
  validTime today ->
  NoDup (Medicine.id <$> newMedicines) ->
  (forall med med', med ∈ newMedicines -> med' ∈ newMedicines ->
     String.prefix (Medicine.id med +:+ "-") (Medicine.id med') = false) ->
  (forall med, med ∈ newMedicines -> NoDup (Medicine.timings med)) ->
  NoDup (Dose.id <$> newDoses LocalTZA today newMedicines).
Proof.
  intros Ht Hids Hprefix Hslots.
  rewrite newDoses_grouped.
  change (Dose.id <$> ?l) with (map Dose.id l).
  rewrite map_flat_map.
  apply NoDup_flat_map; [by apply NoDup_fmap_1 in Hids | |].
  - intros med Hmed. rewrite map_flat_map.
    apply NoDup_flat_map; [apply NoDup_seq | |].
    + intros i _. rewrite map_map. unfold scheduledDose. cbn [Dose.id].
      change (map ?f ?l) with (f <$> l).
      apply NoDup_fmap_2_strong; [| by apply Hslots].
      intros s s' _ _. apply doseId_slot_inj.
    + intros i j y Hi Hj Hyi Hyj. apply elem_of_seq in Hi, Hj.
      rewrite map_map in Hyi, Hyj.
      apply list_elem_of_In, in_map_iff in Hyi as (s & <- & _).
      apply list_elem_of_In, in_map_iff in Hyj as (s' & Heq & _).
      unfold scheduledDose, doseId in Heq. cbn [Dose.id] in Heq.
      do 2 apply append_cancel_l in Heq.
      destruct (dateStr_isoDate LocalTZA today i) as [t Et].
      destruct (dateStr_isoDate LocalTZA today j) as [t' Et'].
      assert (dateStr LocalTZA today j = dateStr LocalTZA today i) as Hd.
      { rewrite Et, Et' in Heq |- *. by apply isoDate_join_inj in Heq as [? _]. }
      symmetry. apply (dateStr_inj today j i); [done | lia | lia | done].
  - intros med med' y Hmed Hmed' Hy Hy'.
    rewrite map_flat_map in Hy, Hy'.
    apply elem_of_flat_map in Hy as (i & _ & Hy).
    apply elem_of_flat_map in Hy' as (j & _ & Hy').
    rewrite map_map in Hy, Hy'.
    apply list_elem_of_In, in_map_iff in Hy as (s & <- & _).
    apply list_elem_of_In, in_map_iff in Hy' as (s' & Heq & _).
    unfold scheduledDose, doseId in Heq. cbn [Dose.id] in Heq.
    apply hyphen_join_inj in Heq as [Heq _]; [| by apply Hprefix..].
    symmetry. by apply (NoDup_fmap_eq Medicine.id newMedicines).
Qed.

(** X12: on a host whose offset from UTC does not change, one call of
    [generateSchedule] gives pairwise different dose identifiers, provided
    the medicines have pairwise different ids, no id followed by a hyphen
    starts another id, and no medicine declares a slot twice. *)
Theorem schedule_ids_distinct (today : Z) (newMedicines : list Medicine.t) :
  validTime today ->
  NoDup (Medicine.id <$> newMedicines) ->
  (forall med med', med ∈ newMedicines -> med' ∈ newMedicines ->
     String.prefix (Medicine.id med +:+ "-") (Medicine.id med') = false) ->
  (forall med, med ∈ newMedicines -> NoDup (Medicine.timings med)) ->
  NoDup (Dose.id <$> newDoses LocalTZA today newMedicines).
Proof. apply newDoses_ids_NoDup. Qed.
End FixedOffsetSchedule.

Lemma schedule_dates_distinct_witness :
  NoDup (dateStr utcTZA sampleToday <$> seq 0 10).
Proof.
  apply (schedule_dates_distinct utcTZA 0%Z).
  - reflexivity.
  - unfold validTime, sampleToday. lia.
Defined.

Lemma schedule_ids_distinct_witness :
  NoDup (Dose.id <$> newDoses utcTZA sampleToday [sampleMedicine; longIdMedicine]).
Proof.
  apply (schedule_ids_distinct utcTZA 0%Z).
  - reflexivity.
  - unfold validTime, sampleToday. lia.
  - vm_compute. repeat (constructor; [by (intros H; inversion H as [|? ? ? H']; inversion H') |]).
    constructor.
  - intros med med' Hmed Hmed'.
    apply elem_of_cons in Hmed as [-> | Hmed];
      [| apply list_elem_of_singleton in Hmed as ->];
    (apply elem_of_cons in Hmed' as [-> | Hmed'];
      [| apply list_elem_of_singleton in Hmed' as ->]); reflexivity.
  - intros med Hmed.
    apply elem_of_cons in Hmed as [-> | Hmed];
      [| apply list_elem_of_singleton in Hmed as ->];
      cbn [Medicine.timings sampleMedicine longIdMedicine]; apply NoDup_singleton.
Defined.

(** ** parsePrescription *)

Section Extraction.

Lemma Number_toString_inj (a b : Z) :
  Number_toString a = Number_toString b -> a = b.
Proof.
  unfold Number_toString. intros Heq.
  assert (forall z, Z.to_int z <> Decimal.Pos Decimal.Nil
                    /\ Z.to_int z <> Decimal.Neg Decimal.Nil) as Hnn.
  { intros [|p|p]; simpl; (split; [| try discriminate]); try discriminate;
      intros [= H]; by apply DecimalPos.Unsigned.to_uint_nonnil in H. }
  apply (f_equal NilZero.int_of_string) in Heq.
  rewrite !NilZero.isi in Heq by apply Hnn.
  injection Heq as Heq. apply (f_equal Z.of_int) in Heq.
  by rewrite !DecimalZ.of_to in Heq.
Qed.

Lemma occurs_append (c : ascii) (a b : string) :
  occurs c (a +:+ b) = occurs c a || occurs c b.
Proof.
  induction a as [|x a IH]; [done |].
  rewrite append_String. cbn [occurs]. by rewrite IH, orb_assoc.
Qed.

Lemma uint_no_hyphen (d : Decimal.uint) :
  occurs "-" (NilEmpty.string_of_uint d) = false.
Proof. induction d; simpl; done. Qed.

(** The decimal text of a number that is not negative has no hyphen. *)
Lemma Number_toString_no_hyphen (n : Z) :
  (0 <= n)%Z -> occurs "-" (Number_toString n) = false.
Proof.
  intros Hn. unfold Number_toString.
  destruct n as [|p|p]; [done | | lia].
  cbn [Z.to_int NilZero.string_of_int]. unfold NilZero.string_of_uint.
  pose proof (uint_no_hyphen (Pos.to_uint p)) as H.
  by destruct (Pos.to_uint p).
Qed.

Lemma prefix_no_hyphen (a b : string) :
  occurs "-" b = false -> String.prefix (a +:+ "-") b = false.
Proof.
  revert b. induction a as [|x a IH]; intros [|c b] Hb; try done.
  - rewrite append_empty, prefix_String.
    destruct (ascii_dec "-" c) as [<-|]; [| done].
    cbn [occurs] in Hb. by rewrite Ascii.eqb_refl in Hb.
  - rewrite append_String, prefix_String.
    destruct (ascii_dec x c); [| done].
    apply IH. cbn [occurs] in Hb. by apply orb_false_elim in Hb as [_ ?].
Qed.

Lemma prefix_app_inv (a b : string) :
  String.prefix a b = true -> exists r, b = a +:+ r.
Proof.
  revert b. induction a as [|x a IH]; intros b Hp.
  - by exists b.
  - destruct b as [|c b]; [done |]. rewrite prefix_String in Hp.
    destruct (ascii_dec x c) as [->|]; [| done].
    destruct (IH b Hp) as [r ->]. by exists r.
Qed.

Lemma append_assoc (a b c : string) : (a +:+ b) +:+ c = a +:+ b +:+ c.
Proof.
  induction a as [|x a IH]; [done |].
  by rewrite !append_String, IH.
Qed.

(** Identifiers [med-<clock>-<index>] are told apart by clock reading and
    index, and none of them followed by a hyphen starts another. *)
Lemma extracted_id_inj (t1 t2 : Z) (i j : nat) :
  (0 <= t1)%Z -> (0 <= t2)%Z ->
  "med-" +:+ Number_toString t1 +:+ "-" +:+ Number_toString (Z.of_nat i)
  = "med-" +:+ Number_toString t2 +:+ "-" +:+ Number_toString (Z.of_nat j) ->
  i = j.
Proof.
  intros H1 H2 Heq. apply append_cancel_l in Heq.
  apply hyphen_join_inj in Heq as [_ Heq];
    [| by apply prefix_no_hyphen, Number_toString_no_hyphen..].
  apply Number_toString_inj in Heq. lia.
Qed.

Lemma extracted_id_prefix (t1 t2 : Z) (i j : nat) :
  (0 <= t1)%Z -> (0 <= t2)%Z ->
  String.prefix
    (("med-" +:+ Number_toString t1 +:+ "-" +:+ Number_toString (Z.of_nat i)) +:+ "-")
    ("med-" +:+ Number_toString t2 +:+ "-" +:+ Number_toString (Z.of_nat j))
  = false.
Proof.
  intros H1 H2.
  destruct (String.prefix _ _) eqn:Hp; [exfalso | done].
  apply prefix_app_inv in Hp as [r Heq].
  rewrite !append_assoc in Heq. apply append_cancel_l in Heq.
  apply hyphen_join_inj in Heq as [_ Heq];
    [| by apply prefix_no_hyphen, Number_toString_no_hyphen..].
  apply (f_equal (occurs "-")) in Heq.
  rewrite Number_toString_no_hyphen, !occurs_append in Heq by lia.
  cbn [occurs] in Heq. rewrite Ascii.eqb_refl in Heq.
  by rewrite orb_true_l, orb_true_r in Heq.
Qed.

Lemma extracted_ids (reply : ModelReply (list ParsedMedicine.t))
    (Date_now : nat -> Z) (extracted : list Medicine.t) :
  (forall index, (0 <= Date_now index)%Z) ->
  parsePrescription reply Date_now = Some extracted ->
  NoDup (Medicine.id <$> extracted)
  /\ (forall med med', med ∈ extracted -> med' ∈ extracted ->
        String.prefix (Medicine.id med +:+ "-") (Medicine.id med') = false).
Proof.
  intros Hclock Hparse. destruct reply as [| | |parsed]; try discriminate Hparse.
  injection Hparse as <-. split.
  - apply NoDup_alt. intros i j x Hi Hj.
    rewrite list_lookup_fmap, list_lookup_imap in Hi, Hj.
    destruct (parsed !! i) as [pi|]; [| discriminate Hi].
    destruct (parsed !! j) as [pj|]; [| discriminate Hj].
    cbn in Hi, Hj. rewrite <- Hj in Hi. apply (inj Some) in Hi.
    by apply extracted_id_inj in Hi.
  - intros med med' Hmed Hmed'.
    apply elem_of_lookup_imap in Hmed as (i & p & -> & _).
    apply elem_of_lookup_imap in Hmed' as (j & p' & -> & _).
    cbn [Medicine.id]. by apply extracted_id_prefix.
Qed.

(** X13: the medicines of one extraction have pairwise different ids, and no
    id followed by a hyphen starts another id, whatever the model replied
    and whenever the clock is read (at or after the epoch). *)
Theorem parsePrescription_ids (reply : ModelReply (list ParsedMedicine.t))
    (Date_now : nat -> Z) (extracted : list Medicine.t) :
  (forall index, (0 <= Date_now index)%Z) ->
  parsePrescription reply Date_now = Some extracted ->
  NoDup (Medicine.id <$> extracted)
  /\ (forall med med', med ∈ extracted -> med' ∈ extracted ->
        String.prefix (Medicine.id med +:+ "-") (Medicine.id med') = false).
Proof. apply extracted_ids. Qed.

Lemma parsePrescription_ids_witness :
  let extracted :=
    imap (λ index m,
            {| Medicine.id :=
                 "med-" +:+ Number_toString (sampleClock index) +:+ "-"
                   +:+ Number_toString (Z.of_nat index);
               Medicine.name := ParsedMedicine.name m;
               Medicine.dosage := ParsedMedicine.dosage m;
               Medicine.frequency := ParsedMedicine.frequency m;
               Medicine.timings := ParsedMedicine.timings m;
               Medicine.durationDays :=
                 if bool_decide (ParsedMedicine.durationDays m = 0%Z)
                 then 10%Z else ParsedMedicine.durationDays m;
               Medicine.potentialInteractions := None |})
         sampleParsed in
  NoDup (Medicine.id <$> extracted)
  /\ (forall med med', med ∈ extracted -> med' ∈ extracted ->
        String.prefix (Medicine.id med +:+ "-") (Medicine.id med') = false).
Proof.
  intros extracted.
  apply (parsePrescription_ids (Json sampleParsed) sampleClock extracted).
  - intros index. unfold sampleClock, sampleToday. lia.
  - reflexivity.
Defined.

End Extraction.

(** ** The upload handler *)

Section Upload.
Variable LocalTZA : Z -> bool -> Z.

Lemma flat_map_imap {A B C : Type} (g : B -> list C) (h : A -> list C)
    (f : nat -> A -> B) (l : list A) :
  (forall i x, g (f i x) = h x) -> flat_map g (imap f l) = flat_map h l.
Proof.
  revert f. induction l as [|x l IH]; intros f Hf; [done |].
  cbn [imap flat_map]. rewrite Hf. f_equal. apply IH. intros i y. apply Hf.
Qed.

(** X15: the upload handler changes the store exactly when the model's
    reply parses to at least one medicine; a rejected, empty or unparsable
    reply and an empty list leave the whole state as it is. *)
Theorem handleFileUpload_changes_iff (reply : ModelReply (list ParsedMedicine.t))
    (Date_now : nat -> Z) (today now : Z) (state : CareState.t) :
  (handleFileUpload LocalTZA reply Date_now today now state).2 = state
  <-> (forall parsed, reply = Json parsed -> parsed = []).
Proof.
  unfold handleFileUpload.
  destruct reply as [| | |parsed]; cbn [parsePrescription];
    try (split; [by intros _ parsed [=] | done]).
  destruct parsed as [|p parsed].
  - cbn. split; [by intros _ parsed' [= <-] | done].
  - rewrite bool_decide_eq_true_2 by (rewrite length_imap; simpl; lia).
    cbn [snd]. split.
    + intros Heq. apply (f_equal (λ s, length (medicines s))) in Heq.
      cbn [generateSchedule medicines] in Heq.
      rewrite length_app, length_imap in Heq. simpl in Heq. lia.
    + intros H. by specialize (H _ eq_refl).
Qed.

(** X16: after a successful upload on a host with one offset from UTC, the
    store holds the extracted medicines after the earlier ones, and the doses
    added for them are ten per declared slot, all pending, with pairwise
    different identifiers (when no extracted medicine declares a slot
    twice). *)
Theorem handleFileUpload_schedules (offset : Z) (parsed : list ParsedMedicine.t)
    (Date_now : nat -> Z) (today now : Z) (state : CareState.t) :
  (forall t isUTC, LocalTZA t isUTC = offset) ->
  validTime today ->
  (forall index, (0 <= Date_now index)%Z) ->
  parsed <> [] ->
  (forall p, p ∈ parsed -> NoDup (ParsedMedicine.timings p)) ->
  let state' := (handleFileUpload LocalTZA (Json parsed) Date_now today now state).2 in
  exists extracted added,
    parsePrescription (Json parsed) Date_now = Some extracted
    /\ medicines state' = medicines state ++ extracted
    /\ doses state' = doses state ++ added
    /\ length added = 10 * length (flat_map ParsedMedicine.timings parsed)
    /\ Forall (λ d, Dose.status d = PENDING) added
    /\ NoDup (Dose.id <$> added).
Proof.
  intros Hoff Htoday Hclock Hne Hslots state'. subst state'.
  unfold handleFileUpload.
  destruct (parsePrescription (Json parsed) Date_now) as [extracted|] eqn:Hparse;
    [| discriminate Hparse].
  destruct (extracted_ids _ _ _ Hclock Hparse) as [Hids Hprefix].
  cbn [parsePrescription] in Hparse. injection Hparse as Hextracted.
  assert (length extracted = length parsed) as Hlen
    by (by rewrite <- Hextracted, length_imap).
  rewrite bool_decide_eq_true_2 by (destruct parsed; [done | simpl in Hlen; lia]).
  cbn [snd generateSchedule medicines doses].
  exists extracted, (newDoses LocalTZA today extracted).
  assert (forall med, med ∈ extracted ->
            exists p, p ∈ parsed /\ Medicine.timings med = ParsedMedicine.timings p)
    as Htimings.
  { intros med Hmed. rewrite <- Hextracted in Hmed.
    apply elem_of_lookup_imap in Hmed as (i & p & -> & Hp).
    exists p. split; [| done]. apply list_elem_of_lookup. by exists i. }
  repeat split.
  - rewrite length_newDoses. f_equal. unfold slotCount.
    rewrite <- Hextracted. f_equal. by apply flat_map_imap.
  - apply Forall_forall. intros d Hd.
    by apply elem_of_newDoses in Hd as (m & i & s & _ & _ & _ & ->).
  - apply (newDoses_ids_NoDup LocalTZA offset); try done.
    intros med Hmed. destruct (Htimings med Hmed) as (p & Hp & ->).
    by apply Hslots.
Qed.
End Upload.

Lemma handleFileUpload_schedules_witness :
  let state' :=
    (handleFileUpload utcTZA (Json sampleParsed) sampleClock sampleToday sampleToday
       rescheduledState).2 in
  exists extracted added,
    parsePrescription (Json sampleParsed) sampleClock = Some extracted
    /\ medicines state' = medicines rescheduledState ++ extracted
    /\ doses state' = doses rescheduledState ++ added
    /\ length added = 10 * length (flat_map ParsedMedicine.timings sampleParsed)
    /\ Forall (λ d, Dose.status d = PENDING) added
    /\ NoDup (Dose.id <$> added).
Proof.
  apply (handleFileUpload_schedules utcTZA 0%Z).
  - reflexivity.
  - unfold validTime, sampleToday. lia.
  - intros index. unfold sampleClock, sampleToday. lia.
  - discriminate.
  - intros p Hp.
    apply elem_of_cons in Hp as [-> | Hp];
      [| apply list_elem_of_singleton in Hp as ->];
      cbn [ParsedMedicine.timings].
    + apply NoDup_cons. split; [| apply NoDup_singleton].
      intros H. apply list_elem_of_singleton in H. discriminate H.
    + apply NoDup_singleton.
Defined.

(** ** The interaction check *)

Section InteractionCheck.
Implicit Types (generateContent : string -> ModelReply (gmap string Interaction.t)).

Lemma length_zero_iff_nil {A : Type} (l : list A) : length l = 0 <-> l = [].
Proof. destruct l; simpl; split; (done || lia). Qed.

(** X17: when the check cannot be answered (the call to the model is
    rejected, or its reply is empty or does not parse) the handler does not
    report a failure: it announces that no critical interaction was found
    and calls [updateInteractions] with the empty object, after which no
    medicine in the store carries an interaction record, and every medicine
    whose id is not the name of a property inherited from [Object.prototype]
    carries no annotation at all. *)
Theorem handleCheckInteractions_failure generateContent
    (rendered current : CareState.t) :
  medicines rendered <> [] ->
  remedies rendered <> [] ->
  (forall interactions,
     generateContent (interactionPrompt (medicines rendered) (remedies rendered))
     <> Json interactions) ->
  let '(requests, toast, state') :=
    handleCheckInteractions generateContent rendered current in
  requests = [interactionPrompt (medicines rendered) (remedies rendered)]
  /\ toast = toast_success "No critical interactions found."
  /\ state' = updateInteractions ∅ current
  /\ Forall (λ med,
              (forall interaction,
                 Medicine.potentialInteractions med
                 <> Some (ownInteraction interaction))
              /\ (Medicine.id med ∉ ObjectPrototype_keys ->
                  Medicine.potentialInteractions med = None))
            (medicines state').
Proof.
  intros Hmeds Hrems Hreply. unfold handleCheckInteractions, checkInteractions.
  rewrite !bool_decide_eq_false_2
    by (rewrite !length_zero_iff_nil; intros [?|?]; done).
  assert (match generateContent
                  (interactionPrompt (medicines rendered) (remedies rendered)) with
          | Json interactions => interactions
          | _ => ∅
          end = (∅ : gmap string Interaction.t)) as Hempty.
  { destruct (generateContent _) as [| | |m] eqn:E; try done.
    by destruct (Hreply m). }
  rewrite Hempty. rewrite map_size_empty.
  rewrite bool_decide_eq_false_2 by lia.
  repeat split. apply Forall_forall. intros med Hmed.
  cbn [updateInteractions medicines] in Hmed.
  change (map ?f ?l) with (f <$> l) in Hmed.
  apply list_elem_of_fmap in Hmed as (m & -> & _).
  cbn [Medicine.id Medicine.potentialInteractions]. unfold Record_get.
  rewrite lookup_empty. split.
  - intros interaction. by destruct (bool_decide _).
  - intros Hkey. by rewrite bool_decide_eq_false_2.
Qed.

Lemma handleCheckInteractions_failure_witness :
  let rendered := run utcTZA [AddMedicines [sampleMedicine]; AddRemedy "Ginger"]
                      initialState in
  let '(requests, toast, state') :=
    handleCheckInteractions (λ _, CallRejected) rendered rendered in
  requests = [interactionPrompt (medicines rendered) (remedies rendered)]
  /\ toast = toast_success "No critical interactions found."
  /\ state' = updateInteractions ∅ rendered
  /\ Forall (λ med,
              (forall interaction,
                 Medicine.potentialInteractions med
                 <> Some (ownInteraction interaction))
              /\ (Medicine.id med ∉ ObjectPrototype_keys ->
                  Medicine.potentialInteractions med = None))
            (medicines state').
Proof.
  intros rendered.
  apply (handleCheckInteractions_failure (λ _, CallRejected) rendered rendered);
    discriminate.
Defined.

(** X18: the interaction check asks the model at most once, and not at all
    exactly when the rendered state has no medicine or no remedy; in that
    case the store is left as it is. *)
Theorem handleCheckInteractions_requests generateContent
    (rendered current : CareState.t) :
  let '(requests, toast, state') :=
    handleCheckInteractions generateContent rendered current in
  length requests <= 1
  /\ (requests = [] <-> medicines rendered = [] \/ remedies rendered = [])
  /\ (requests = [] -> state' = current).
Proof.
  unfold handleCheckInteractions, checkInteractions.
  destruct (bool_decide_reflect
              (length (medicines rendered) = 0 \/ length (remedies rendered) = 0))
    as [Hempty|Hfull].
  - rewrite !length_zero_iff_nil in Hempty. cbn.
    repeat split; first [done | lia].
  - rewrite bool_decide_eq_false_2 by tauto.
    rewrite !length_zero_iff_nil in Hfull. cbn.
    repeat split; first [done | lia | tauto].
Qed.
End InteractionCheck.

(** ** The store as the app drives it *)

Section AppRuns.
Variable LocalTZA : Z -> bool -> Z.
Variable trim : string -> string.

Lemma appRun_invariant (P : CareState.t -> Prop) :
  (forall state event, P state -> P (appStep LocalTZA trim state event)) ->
  forall events state, P state -> P (appRun LocalTZA trim events state).
Proof.
  intros Hstep events. induction events as [|event events IH]; intros state HP.
  - done.
  - cbn [appRun fold_left]. by apply IH, Hstep.
Qed.

Lemma toggleDose_keeps (env : ToggleEnv) (doseId : string) (status : DoseStatus)
    (state : CareState.t) :
  medicines (toggleDose env doseId status state) = medicines state
  /\ remedies (toggleDose env doseId status state) = remedies state.
Proof.
  unfold toggleDose. destruct (List.find _ _); [| done].
  by destruct (bool_decide _).
Qed.

(** What a step of the app does to the remedies. *)
Lemma appStep_remedies (state : CareState.t) (event : AppEvent) :
  remedies (appStep LocalTZA trim state event) = remedies state
  \/ (exists r, event = RemoveRemedyClicked r
                /\ remedies (appStep LocalTZA trim state event)
                   = filter (λ x, x <> r) (remedies state))
  \/ (event = ClearAllConfirmed /\ remedies (appStep LocalTZA trim state event) = [])
  \/ (exists remedyInput,
        event = RemedySubmitted remedyInput
        /\ trim remedyInput <> ""
        /\ (trim remedyInput ∉ remedies state)
        /\ remedies (appStep LocalTZA trim state event)
           = remedies state ++ [trim remedyInput]).
Proof.
  destruct event as [reply clock today now|input|r|gc rendered|env dose|env dose|];
    cbn [appStep].
  - left. unfold handleFileUpload.
    destruct (parsePrescription reply clock); [| done].
    by destruct (bool_decide _).
  - unfold handleAddRemedy.
    destruct (bool_decide_reflect (trim input = "")); [by left |].
    unfold addRemedy. cbn [remedies].
    destruct (bool_decide_reflect (trim input ∈ remedies state)); [by left |].
    do 3 right. by exists input.
  - right. left. by exists r.
  - left. unfold handleCheckInteractions.
    destruct (bool_decide _); [done |].
    by destruct (checkInteractions _ _ _).
  - left. apply toggleDose_keeps.
  - left. apply toggleDose_keeps.
  - right. right. left. done.
Qed.

(** X19: through the app no empty remedy name is ever stored.  After any
    sequence of app events from the initial store, no remedy is the empty
    string, the remedies are pairwise different, and each of them is the
    trimmed text of an input that was submitted through the form; and
    submitting the same input twice in a row changes nothing more. *)
Theorem app_remedies_from_form (events : list AppEvent) :
  let state := appRun LocalTZA trim events initialState in
  ("" ∉ remedies state)
  /\ NoDup (remedies state)
  /\ (forall r, r ∈ remedies state ->
        exists remedyInput, RemedySubmitted remedyInput ∈ events
                            /\ r = trim remedyInput)
  /\ (forall remedyInput,
        handleAddRemedy trim remedyInput (handleAddRemedy trim remedyInput state)
        = handleAddRemedy trim remedyInput state).
Proof.
  intros state. subst state.
  assert (forall events0 state0,
            (("" ∉ remedies state0) /\ NoDup (remedies state0)
             /\ forall r, r ∈ remedies state0 ->
                  exists remedyInput, RemedySubmitted remedyInput ∈ events0
                                      /\ r = trim remedyInput) ->
            let state := appRun LocalTZA trim events state0 in
            ("" ∉ remedies state) /\ NoDup (remedies state)
            /\ forall r, r ∈ remedies state ->
                 exists remedyInput,
                   RemedySubmitted remedyInput ∈ events0 ++ events
                   /\ r = trim remedyInput) as Hgen.
  { clear. induction events as [|event events IH]; intros events0 state0 Hinv.
    - cbn. by rewrite app_nil_r.
    - cbn [appRun fold_left].
      replace (events0 ++ event :: events) with ((events0 ++ [event]) ++ events)
        by (by rewrite <- app_assoc).
      apply IH. destruct Hinv as (Hne & Hnd & Hfrom).
      assert (forall r, r ∈ remedies state0 ->
                exists remedyInput, RemedySubmitted remedyInput ∈ events0 ++ [event]
                                    /\ r = trim remedyInput) as Hfrom'.
      { intros r Hr. destruct (Hfrom r Hr) as (input & Hin & ->).
        exists input. split; [| done]. apply elem_of_app. by left. }
      destruct (appStep_remedies state0 event)
        as [-> | [(r & _ & ->) | [(_ & ->) | (input & -> & Hname & Hnew & ->)]]].
      + done.
      + repeat split.
        * intros Hin. by apply list_elem_of_filter in Hin as [_ ?].
        * by apply NoDup_filter.
        * intros x Hx. apply list_elem_of_filter in Hx as [_ Hx]. by apply Hfrom'.
      + repeat split.
        * intros H. inversion H.
        * constructor.
        * intros x Hx. inversion Hx.
      + repeat split.
        * intros Hin. apply elem_of_app in Hin as [Hin|Hin]; [done |].
          apply list_elem_of_singleton in Hin. by apply Hname.
        * apply NoDup_app. repeat split; [done | | apply NoDup_singleton].
          intros x Hx Hx'. apply list_elem_of_singleton in Hx' as ->. done.
        * intros x Hx. apply elem_of_app in Hx as [Hx|Hx]; [by apply Hfrom' |].
          apply list_elem_of_singleton in Hx as ->.
          exists input. split; [| done]. apply elem_of_app. right. left. }
  destruct (Hgen [] initialState) as (Hne & Hnd & Hfrom).
  { cbn [initialState remedies]. repeat split.
    - intros H. inversion H.
    - constructor.
    - intros r Hr. inversion Hr. }
  repeat split; [exact Hne | exact Hnd | exact Hfrom |].
  intros input. unfold handleAddRemedy at 1 3.
  destruct (bool_decide_reflect (trim input = "")) as [Hblank|Hname].
  - unfold handleAddRemedy. by rewrite bool_decide_eq_true_2.
  - unfold handleAddRemedy. rewrite bool_decide_eq_false_2 by done.
    apply addRemedy_present. unfold addRemedy. cbn [remedies].
    destruct (bool_decide_reflect
                (trim input ∈ remedies (appRun LocalTZA trim events initialState)));
      [done |].
    apply elem_of_app. right. left.
Qed.

Lemma medPrefix_not_inherited (key : string) :
  String.prefix "med-" key = true -> key ∉ ObjectPrototype_keys.
Proof.
  intros Hp Hin. unfold ObjectPrototype_keys in Hin.
  repeat (apply elem_of_cons in Hin as [-> | Hin]; [vm_compute in Hp; discriminate Hp |]).
  inversion Hin.
Qed.

Lemma prefix_append (a r : string) : String.prefix a (a +:+ r) = true.
Proof.
  induction a as [|c a IH]; [by destruct r |].
  rewrite append_String, prefix_String. by destruct (ascii_dec c c).
Qed.

Lemma appStep_medicines (state : CareState.t) (event : AppEvent) :
  Forall appMedicine (medicines state) ->
  Forall appMedicine (medicines (appStep LocalTZA trim state event)).
Proof.
  intros Hall.
  destruct event as [reply clock today now|input|r|gc rendered|env dose|env dose|];
    cbn [appStep].
  - unfold handleFileUpload.
    destruct (parsePrescription reply clock) as [extracted|] eqn:Hparse; [| done].
    destruct (bool_decide _); [| done].
    cbn [snd generateSchedule medicines]. apply Forall_app. split; [done |].
    destruct reply as [| | |parsed]; try discriminate Hparse.
    cbn [parsePrescription] in Hparse. injection Hparse as <-.
    apply Forall_forall. intros med Hmed.
    apply elem_of_lookup_imap in Hmed as (i & p & -> & _).
    split; [apply prefix_append | done].
  - unfold handleAddRemedy. destruct (bool_decide _); done.
  - done.
  - unfold handleCheckInteractions.
    destruct (bool_decide _); [done |].
    destruct (checkInteractions _ _ _) as [requests interactions].
    cbn [snd updateInteractions medicines].
    change (map ?f ?l) with (f <$> l). apply Forall_fmap.
    eapply Forall_impl; [exact Hall |].
    intros med [Hid _]. split; [done |].
    cbn [Medicine.id Medicine.potentialInteractions]. unfold Record_get.
    intros key. destruct (interactions !! Medicine.id med); [done |].
    by rewrite bool_decide_eq_false_2 by by apply medPrefix_not_inherited.
  - unfold takenButton_onClick.
    by rewrite (proj1 (toggleDose_keeps _ _ _ _)).
  - unfold missedButton_onClick.
    by rewrite (proj1 (toggleDose_keeps _ _ _ _)).
  - constructor.
Qed.

(** X24: in every state the app reaches from the initial store, each
    medicine id starts with [med-] and so is not the name of a property
    inherited from [Object.prototype]; no annotation is such an inherited
    property; and [updateInteractions] with the empty object clears the
    annotation of every medicine. *)
Theorem app_annotations_clear (events : list AppEvent) :
  let state := appRun LocalTZA trim events initialState in
  Forall (λ med, String.prefix "med-" (Medicine.id med) = true
                 /\ (Medicine.id med ∉ ObjectPrototype_keys)
                 /\ forall key, Medicine.potentialInteractions med
                                <> Some (inheritedProperty key))
         (medicines state)
  /\ Forall (λ med, Medicine.potentialInteractions med = None)
            (medicines (updateInteractions ∅ state)).
Proof.
  intros state.
  assert (Forall appMedicine (medicines state)) as Hall.
  { subst state.
    apply (appRun_invariant (λ s, Forall appMedicine (medicines s)));
      [apply appStep_medicines | constructor]. }
  split.
  - eapply Forall_impl; [exact Hall |].
    intros med [Hid Hann]. repeat split; [done | | done].
    by apply medPrefix_not_inherited.
  - cbn [updateInteractions medicines].
    change (map ?f ?l) with (f <$> l). apply Forall_fmap.
    eapply Forall_impl; [exact Hall |].
    intros med [Hid _]. unfold compose.
    cbn [Medicine.id Medicine.potentialInteractions]. unfold Record_get.
    rewrite lookup_empty.
    by rewrite bool_decide_eq_false_2 by by apply medPrefix_not_inherited.
Qed.
End AppRuns.

(** ** The buttons of a dose card *)

Section DoseButtons.
Implicit Types (env : ToggleEnv) (state : CareState.t) (dose : Dose.t).

Lemma NoDup_ids_split (pre post : list Dose.t) dose :
  NoDup (Dose.id <$> (pre ++ dose :: post)) ->
  (forall d, d ∈ pre -> Dose.id d <> Dose.id dose)
  /\ (forall d, d ∈ post -> Dose.id d <> Dose.id dose).
Proof.
  rewrite fmap_app, fmap_cons. intros Hnd.
  apply NoDup_app in Hnd as (_ & Hdisj & Hpost).
  apply NoDup_cons in Hpost as [Hpost _]. split.
  - intros d Hd Heq. apply (Hdisj (Dose.id d)).
    + apply list_elem_of_fmap. by exists d.
    + rewrite Heq. left.
  - intros d Hd Heq. apply Hpost. rewrite <- Heq.
    apply list_elem_of_fmap. by exists d.
Qed.

(** With pairwise different identifiers, [toggleDose] to another status
    replaces the one dose and files its entry. *)
Lemma toggleDose_unique env state (pre post : list Dose.t) dose (s : DoseStatus) :
  doses state = pre ++ dose :: post ->
  NoDup (Dose.id <$> doses state) ->
  Dose.status dose <> s ->
  toggleDose env (Dose.id dose) s state
  = {| medicines := medicines state;
       doses := pre ++ withStatus dose s :: post;
       history := take 100 (historyEntry env dose s :: history state);
       remedies := remedies state;
       lastExtractionDate := lastExtractionDate state |}.
Proof.
  intros Hdoses Hnd Hs. rewrite Hdoses in Hnd.
  apply NoDup_ids_split in Hnd as [Hpre Hpost].
  unfold toggleDose. rewrite Hdoses, find_first by done.
  rewrite bool_decide_eq_false_2 by done.
  rewrite map_app, map_status_absent by done. cbn [map].
  by rewrite bool_decide_eq_true_2, map_status_absent by done.
Qed.

Lemma toggled_replaces (pre post : list Dose.t) dose (s : DoseStatus) :
  NoDup (Dose.id <$> (pre ++ dose :: post)) ->
  Dose.status dose <> s ->
  withStatus dose s ∈ pre ++ withStatus dose s :: post
  /\ dose ∉ pre ++ withStatus dose s :: post.
Proof.
  intros Hnd Hs. apply NoDup_ids_split in Hnd as [Hpre Hpost]. split.
  - apply elem_of_app. right. left.
  - intros Hin. apply elem_of_app in Hin as [Hin|Hin].
    + by apply (Hpre dose Hin).
    + apply elem_of_cons in Hin as [Heq|Hin].
      * apply Hs. by rewrite Heq.
      * by apply (Hpost dose Hin).
Qed.

(** X20: with pairwise different dose identifiers, neither button of a
    displayed dose is ever idle.  "Taken" turns a taken dose pending and any
    other dose taken; "Missed" turns a missed dose pending and any other dose
    missed; either way the clicked dose is replaced by its copy with the new
    status and one history entry with that status is filed. *)
Theorem dose_buttons_act env (selectedDate : string) dose state :
  NoDup (Dose.id <$> doses state) ->
  dose ∈ currentDoses selectedDate state ->
  let afterTaken := if bool_decide (Dose.status dose = TAKEN) then PENDING else TAKEN in
  let afterMissed := if bool_decide (Dose.status dose = MISSED) then PENDING else MISSED in
  (history (takenButton_onClick env dose state)
     = take 100 (historyEntry env dose afterTaken :: history state)
   /\ withStatus dose afterTaken ∈ doses (takenButton_onClick env dose state)
   /\ dose ∉ doses (takenButton_onClick env dose state))
  /\ (history (missedButton_onClick env dose state)
        = take 100 (historyEntry env dose afterMissed :: history state)
      /\ withStatus dose afterMissed ∈ doses (missedButton_onClick env dose state)
      /\ dose ∉ doses (missedButton_onClick env dose state)).
Proof.
  intros Hnd Hdose. apply list_elem_of_filter in Hdose as [_ Hdose].
  apply list_elem_of_split in Hdose as (pre & post & Hdoses).
  intros afterTaken afterMissed.
  assert (Dose.status dose <> afterTaken) as HT
    by (subst afterTaken; destruct (Dose.status dose); done).
  assert (Dose.status dose <> afterMissed) as HM
    by (subst afterMissed; destruct (Dose.status dose); done).
  unfold takenButton_onClick, missedButton_onClick.
  fold afterTaken afterMissed.
  rewrite !(toggleDose_unique env state pre post) by done.
  cbn [doses history]. rewrite Hdoses in Hnd.
  split; (split; [done | by apply toggled_replaces]).
Qed.

Lemma dose_buttons_act_witness :
  let dose := scheduledDose sampleMedicine "2026-03-28" "Morning" in
  let state := run utcTZA [GenerateSchedule sampleToday sampleToday [sampleMedicine]]
                   initialState in
  (history (takenButton_onClick sampleEnv dose state)
     = take 100 (historyEntry sampleEnv dose TAKEN :: history state)
   /\ withStatus dose TAKEN ∈ doses (takenButton_onClick sampleEnv dose state)
   /\ dose ∉ doses (takenButton_onClick sampleEnv dose state))
  /\ (history (missedButton_onClick sampleEnv dose state)
        = take 100 (historyEntry sampleEnv dose MISSED :: history state)
      /\ withStatus dose MISSED ∈ doses (missedButton_onClick sampleEnv dose state)
      /\ dose ∉ doses (missedButton_onClick sampleEnv dose state)).
Proof.
  intros dose state.
  apply (dose_buttons_act sampleEnv "2026-03-28" dose state).
  - vm_compute.
    repeat (apply NoDup_cons; split;
            [intros H; repeat (apply elem_of_cons in H as [H|H]; [discriminate H |]);
             inversion H |]).
    apply NoDup_nil_2.
  - apply list_elem_of_filter. split; [reflexivity |].
    vm_compute. apply list_elem_of_here.
Defined.

Lemma withStatus_withStatus dose (a b : DoseStatus) :
  withStatus (withStatus dose a) b = withStatus dose b.
Proof. reflexivity. Qed.

(** X21: two clicks on "Taken" undo each other for a pending or a taken
    dose, but not for a missed one: that dose is taken after the first click
    and pending after the second, and its missed mark is gone. *)
Theorem takenButton_twice env env' dose state :
  NoDup (Dose.id <$> doses state) ->
  dose ∈ doses state ->
  let dose' :=
    withStatus dose (if bool_decide (Dose.status dose = TAKEN) then PENDING else TAKEN) in
  let state'' := takenButton_onClick env' dose' (takenButton_onClick env dose state) in
  (Dose.status dose <> MISSED -> doses state'' = doses state)
  /\ (Dose.status dose = MISSED ->
      withStatus dose PENDING ∈ doses state'' /\ dose ∉ doses state'').
Proof.
  intros Hnd Hdose. apply list_elem_of_split in Hdose as (pre & post & Hdoses).
  intros dose' state''. subst state'' dose'. unfold takenButton_onClick.
  set (s1 := if bool_decide (Dose.status dose = TAKEN) then PENDING else TAKEN).
  assert (Dose.status dose <> s1) as H1
    by (subst s1; destruct (Dose.status dose); done).
  rewrite (toggleDose_unique env state pre post) by done.
  cbn [withStatus Dose.status Dose.id].
  set (s2 := if bool_decide (s1 = TAKEN) then PENDING else TAKEN).
  assert (s1 <> s2) as H2 by (subst s1 s2; destruct (Dose.status dose); done).
  change (Dose.id dose) with (Dose.id (withStatus dose s1)).
  rewrite (toggleDose_unique env' _ pre post (withStatus dose s1) s2);
    [| done | | done].
  - cbn [doses]. rewrite withStatus_withStatus.
    rewrite Hdoses in Hnd |- *. split.
    + intros Hnm. do 2 f_equal. subst s1 s2.
      destruct dose as [? ? ? ? ? []]; done.
    + intros Hm. assert (s2 = PENDING) as ->
        by (subst s1 s2; rewrite Hm; done).
      apply toggled_replaces; [done | by rewrite Hm].
  - cbn [doses]. rewrite Hdoses in Hnd.
    by rewrite fmap_app, fmap_cons in Hnd |- *.
Qed.

Lemma takenButton_twice_witness :
  let dose := withStatus (scheduledDose sampleMedicine "2026-03-28" "Morning") MISSED in
  let state := {| medicines := [sampleMedicine]; doses := [dose]; history := [];
                  remedies := []; lastExtractionDate := None |} in
  let state'' := takenButton_onClick sampleEnv (withStatus dose TAKEN)
                   (takenButton_onClick sampleEnv dose state) in
  (Dose.status dose <> MISSED -> doses state'' = doses state)
  /\ (Dose.status dose = MISSED ->
      withStatus dose PENDING ∈ doses state'' /\ dose ∉ doses state'').
Proof.
  intros dose state.
  apply (takenButton_twice sampleEnv sampleEnv dose state).
  - apply NoDup_singleton.
  - apply list_elem_of_here.
Defined.
End DoseButtons.

(** ** The date tabs and the doses of the selected date *)

Section DateTabs.

Lemma Set_from_acc (array set : list string) :
  NoDup set ->
  let result :=
    fold_left (λ set x, if bool_decide (x ∈ set) then set else set ++ [x]) array set in
  NoDup result /\ forall x, x ∈ result <-> x ∈ set \/ x ∈ array.
Proof.
  revert set. induction array as [|a array IH]; intros set Hnd; cbn [fold_left].
  - split; [done |]. intros x. split; [by left |]. intros [?|H]; [done | inversion H].
  - destruct (bool_decide_reflect (a ∈ set)) as [Hin|Hnin].
    + destruct (IH set Hnd) as [Hnd' Hel]. split; [done |].
      intros x. rewrite Hel, elem_of_cons. split; [tauto |].
      intros [?|[->|?]]; tauto.
    + assert (NoDup (set ++ [a])) as Hnd2.
      { apply NoDup_app. repeat split; [done | | apply NoDup_singleton].
        intros x Hx Hx'. apply list_elem_of_singleton in Hx' as ->. done. }
      destruct (IH _ Hnd2) as [Hnd' Hel]. split; [done |].
      intros x. rewrite Hel, elem_of_app, list_elem_of_singleton, elem_of_cons. tauto.
Qed.

Lemma Set_from_spec (array : list string) :
  NoDup (Set_from array) /\ forall x, x ∈ Set_from array <-> x ∈ array.
Proof.
  destruct (Set_from_acc array [] (NoDup_nil_2)) as [Hnd Hel].
  split; [done |]. intros x. rewrite (Hel x). split; [| by right].
  intros [H|H]; [inversion H | done].
Qed.

#[local] Instance string_le_total : Total string_le.
Proof. intros a b. apply String.leb_total. Qed.

(** X22: the date tabs list every date that has a dose, once each, in
    ascending order of the date strings, and nothing else; every dose is
    shown under the tab of its own date and under no other tab. *)
Theorem date_tabs (state : CareState.t) :
  NoDup (uniqueDates state)
  /\ Sorted.Sorted string_le (uniqueDates state)
  /\ (forall date, date ∈ uniqueDates state <-> currentDoses date state <> [])
  /\ (forall d, d ∈ doses state ->
        Dose.date d ∈ uniqueDates state
        /\ forall date, d ∈ currentDoses date state <-> date = Dose.date d).
Proof.
  destruct (Set_from_spec (Dose.date <$> doses state)) as [Hnd Hel].
  assert (forall date, date ∈ uniqueDates state
                       <-> exists d, d ∈ doses state /\ Dose.date d = date) as Htab.
  { intros date. unfold uniqueDates.
    rewrite sorting.merge_sort_Permutation, Hel, list_elem_of_fmap.
    split; intros (d & H1 & H2); exists d; done. }
  repeat split.
  - unfold uniqueDates. by rewrite sorting.merge_sort_Permutation.
  - apply sorting.Sorted_merge_sort. apply _.
  - intros Hdate Hnil. apply Htab in Hdate as (d & Hd & Hdd).
    assert (d ∈ currentDoses date state) as Hin
      by (by apply list_elem_of_filter).
    rewrite Hnil in Hin. inversion Hin.
  - intros Hne. apply Htab.
    destruct (currentDoses date state) as [|d l] eqn:Hcur; [done |].
    assert (d ∈ currentDoses date state) as Hin by (rewrite Hcur; left).
    apply list_elem_of_filter in Hin as [Hdd Hd]. by exists d.
  - apply Htab. by exists d.
  - intros Hin. by apply list_elem_of_filter in Hin as [-> _].
  - intros ->. by apply list_elem_of_filter.
Qed.

Lemma filter_flat_map {A B : Type} (P : B -> Prop) `{!forall y, Decision (P y)}
    (f : A -> list B) (l : list A) :
  filter P (flat_map f l) = flat_map (λ x, filter P (f x)) l.
Proof.
  induction l as [|x l IH]; [done |].
  cbn [flat_map]. by rewrite filter_app, IH.
Qed.

Lemma filter_all {A : Type} (P : A -> Prop) `{!forall y, Decision (P y)} (l : list A) :
  Forall P l -> filter P l = l.
Proof.
  induction 1 as [|x l Hx _ IH]; [done |].
  by rewrite filter_cons, decide_True, IH.
Qed.

Lemma filter_none {A : Type} (P : A -> Prop) `{!forall y, Decision (P y)} (l : list A) :
  Forall (λ x, ~ P x) l -> filter P l = [].
Proof.
  induction 1 as [|x l Hx _ IH]; [done |].
  by rewrite filter_cons, decide_False, IH.
Qed.

(** X23: on a host with one offset from UTC, the schedule of an upload made
    on the UTC day the app was opened shows up under the date selected at
    start: the doses of that date are those that were there already,
    followed by one pending dose per medicine and slot, in upload order. *)
Theorem todays_doses_shown (LocalTZA : Z -> bool -> Z) (offset clock today now : Z)
    (newMedicines : list Medicine.t) (state : CareState.t) :
  (forall t isUTC, LocalTZA t isUTC = offset) ->
  validTime today ->
  JSDate.Day clock = JSDate.Day today ->
  let selectedDate := initialSelectedDate clock in
  currentDoses selectedDate (generateSchedule LocalTZA today now newMedicines state)
  = currentDoses selectedDate state
    ++ flat_map (λ med, map (scheduledDose med selectedDate) (Medicine.timings med))
                newMedicines.
Proof.
  intros Hoff Htoday Hday selectedDate.
  assert (selectedDate = dateStr LocalTZA today 0) as Hsel.
  { subst selectedDate. unfold initialSelectedDate.
    rewrite split_head_toISOString, isoDate_Day, Hday.
    rewrite (dateStr_fixed_offset LocalTZA offset) by done.
    by rewrite Z.add_0_r. }
  unfold currentDoses. cbn [generateSchedule doses].
  rewrite filter_app. f_equal.
  rewrite newDoses_grouped, filter_flat_map.
  apply flat_map_ext. intros med.
  change (seq 0 10) with (0 :: seq 1 9). cbn [flat_map].
  rewrite filter_app, <- Hsel.
  rewrite filter_all, filter_none; [by rewrite app_nil_r | |].
  - apply Forall_forall. intros d Hd.
    apply elem_of_flat_map in Hd as (i & Hi & Hd).
    apply elem_of_seq in Hi.
    apply list_elem_of_In, in_map_iff in Hd as (s & <- & _).
    unfold scheduledDose. cbn [Dose.date]. rewrite Hsel. intros Heq.
    apply (dateStr_inj LocalTZA offset Hoff) in Heq; [lia | done | lia | lia].
  - apply Forall_forall. intros d Hd.
    by apply list_elem_of_In, in_map_iff in Hd as (s & <- & _).
Qed.

Lemma todays_doses_shown_witness :
  let selectedDate := initialSelectedDate (sampleToday + 3600000) in
  currentDoses selectedDate
    (generateSchedule utcTZA sampleToday sampleToday [sampleMedicine] initialState)
  = currentDoses selectedDate initialState
    ++ flat_map (λ med, map (scheduledDose med selectedDate) (Medicine.timings med))
                [sampleMedicine].
Proof.
  apply (todays_doses_shown utcTZA 0%Z).
  - reflexivity.
  - unfold validTime, sampleToday. lia.
  - reflexivity.
Defined.
End DateTabs.
